(** * Market maker core: strategy engine, risk manager and volatility estimator

    A shallow embedding of [src/model/as_logic.rs], [src/model/risk.rs],
    [src/math/volatility.rs], the quoting branch of [src/engine.rs] and the
    signer/broadcaster hand-off of [src/execution/event_loop.rs].

    Numbers are modelled as the code has them:
    - Rust's [f64] is Rocq's primitive binary64 [float] (IEEE 754, round to
      nearest even, NaN and signed infinities), so [+ - * / sqrt] and the
      comparisons are exactly Rust's;
    - [rust_decimal::Decimal] is an exact rational [Q] (a decimal is an exact
      rational with a power-of-ten denominator);
    - [i64] timestamps are [Z] with the two's-complement wrap-around written
      out. *)

From Stdlib Require Import ZArith QArith Qabs Qpower List Bool Floats Lia Sorted.
From Stdlib Require String.
Import ListNotations.

Open Scope Z_scope.

(** Rust float literals such as [0.01] denote the nearest binary64, as here. *)
Set Warnings "-inexact-float,-register-all".

(** ** f64 helpers *)

Module F64.

Local Open Scope float_scope.

(** [x as f64] for an integer: the nearest binary64 (ties to even). *)
Definition of_Z (z : Z) : float :=
  SF2Prim (binary_normalize prec emax z 0%Z false).

(** [f64::max]: when one argument is NaN the other one is returned. *)
Definition max (x y : float) : float :=
  if is_nan x then y
  else if is_nan y then x
  else if x <? y then y else x.

(** [f64::min]: when one argument is NaN the other one is returned. *)
Definition min (x y : float) : float :=
  if is_nan x then y
  else if is_nan y then x
  else if y <? x then y else x.

(** The integer part of a float [0 <= a < 2^52] (exact: adding and removing
    2^52 rounds to an integer, a too large result is corrected by one). *)
Definition two52 : float := 4503599627370496.

Definition trunc_small (a : float) : float :=
  let y := (a + two52) - two52 in
  if a <? y then y - 1 else y.

(** [f64::round]: round half away from zero; NaN, infinities and floats
    of magnitude at least 2^52 (all integers) are returned unchanged. *)
Definition round (x : float) : float :=
  if is_nan x || is_infinity x then x
  else
    let a := abs x in
    if two52 <=? a then x
    else
      let t := trunc_small a in
      let r := if 0.5 <=? a - t then t + 1 else t in
      if get_sign x then - r else r.

(** [f64::ln] is libm's [log]. The theorems below take it as a parameter;
    the concrete evaluations use [ln_f64]: the special values of [log]
    (NaN, [log 0 = -inf], [log inf = inf], [log 1 = 0], NaN below zero) and,
    for a finite positive [x = m * 2^e] with [sqrt(1/2) <= m < sqrt 2],
    [e * ln 2 + 2 atanh((m-1)/(m+1))] summed to 14 odd powers (a few ulps
    from the correctly rounded logarithm). *)
Definition ln2 : float := 0.6931471805599453.

Definition atanh_coeffs : list float :=
  map (fun i => 1 / of_Z (2 * Z.of_nat i + 1)) (seq 0 14).

Definition ln_f64 (x : float) : float :=
  if is_nan x then nan
  else if x <? 0 then nan
  else if is_zero x then neg_infinity
  else if is_infinity x then infinity
  else
    let '(m0, e0) := Z.frexp x in
    let '(m, e) := if m0 <? 0.7071067811865476 then (2 * m0, (e0 - 1)%Z)
                   else (m0, e0) in
    let s := (m - 1) / (m + 1) in
    let s2 := s * s in
    let p := fold_right (fun c acc => c + s2 * acc) 0 atanh_coeffs in
    of_Z e * ln2 + 2 * s * p.

End F64.

(** ** Decimals *)

Module Dec.

(** [Decimal::to_f64] (and [f64::try_from(Decimal)]): the f64 nearest to the
    decimal, the quotient of its mantissa by its power of ten. *)
Definition to_f64 (d : Q) : float :=
  (F64.of_Z (Qnum d) / F64.of_Z (Zpos (Qden d)))%float.

(** The exact value of a finite float as a rational. *)
Definition of_spec_float (f : spec_float) : Q :=
  match f with
  | S754_finite s m e => (inject_Z (if s then Zneg m else Zpos m) * Qpower (2 # 1) e)%Q
  | _ => 0%Q
  end.

(** [Decimal::from_f64_retain]: [None] for NaN and infinities, otherwise the
    value of the float itself, all of its binary digits retained (the values
    met below, 0.01 to 0.99, have at most 28 significant decimal digits that
    matter to the comparisons made with them). *)
Definition from_f64_retain (x : float) : option Q :=
  if is_nan x || is_infinity x then None
  else Some (of_spec_float (Prim2SF x)).

(** Decimal comparisons, as booleans. *)
Definition gtb (x y : Q) : bool := negb (Qle_bool x y).
Definition ltb (x y : Q) : bool := negb (Qle_bool y x).

End Dec.

(** ** Core types ([src/core.rs]) *)

Inductive Exchange := Polymarket | OpinionLabs | Unknown.

Inductive Side := Buy | Sell.

Definition Side_eqb (a b : Side) : bool :=
  match a, b with Buy, Buy | Sell, Sell => true | _, _ => false end.

Record TradeSignal := {
  strategy_id : Z;
  target_exchange : Exchange;
  symbol_id : Z;
  side : Side;
  price : Q;
  size_usd : Q;
  logic_tag : Z;
  created_at_ns : Z
}.

(** ** Risk manager ([src/model/risk.rs]) *)

Module Risk.

Record RiskManager := {
  max_drawdown_usd : float;
  max_order_size_usd : float;
  stop_loss_price_floor : Q;
  stop_loss_price_ceiling : Q;
  total_pnl : float;
  peak_equity_pnl : float;
  current_drawdown : float;
  is_kill_switch_active : bool
}.

(** The runtime fields as [RiskManager::new] sets them. *)
Definition new (max_drawdown max_order : float) (floor ceiling : Q) : RiskManager :=
  {| max_drawdown_usd := max_drawdown;
     max_order_size_usd := max_order;
     stop_loss_price_floor := floor;
     stop_loss_price_ceiling := ceiling;
     total_pnl := 0;
     peak_equity_pnl := 0;
     current_drawdown := 0;
     is_kill_switch_active := false |}.

(** [RiskManager::check_signal]. *)
Definition check_signal (self : RiskManager) (signal : TradeSignal) : bool :=
  if is_kill_switch_active self then false
  else
    let size_f64 := Dec.to_f64 (size_usd signal) in
    if (max_order_size_usd self <? size_f64)%float then false
    else if Side_eqb (side signal) Buy
            && Dec.gtb (price signal) (stop_loss_price_ceiling self) then false
    else if Side_eqb (side signal) Sell
            && Dec.ltb (price signal) (stop_loss_price_floor self) then false
    else true.

Definition with_pnl (self : RiskManager) (total peak dd : float) (kill : bool)
  : RiskManager :=
  {| max_drawdown_usd := max_drawdown_usd self;
     max_order_size_usd := max_order_size_usd self;
     stop_loss_price_floor := stop_loss_price_floor self;
     stop_loss_price_ceiling := stop_loss_price_ceiling self;
     total_pnl := total;
     peak_equity_pnl := peak;
     current_drawdown := dd;
     is_kill_switch_active := kill |}.

(** [RiskManager::update_pnl_and_check_kill]: the new state and the result. *)
Definition update_pnl_and_check_kill (self : RiskManager) (pnl_change : float)
  : RiskManager * bool :=
  if is_kill_switch_active self then (self, false)
  else
    let total := (total_pnl self + pnl_change)%float in
    let '(peak, dd) :=
      if (peak_equity_pnl self <? total)%float then (total, 0%float)
      else (peak_equity_pnl self, (peak_equity_pnl self - total)%float) in
    if (max_drawdown_usd self <? dd)%float then (with_pnl self total peak dd true, true)
    else (with_pnl self total peak dd false, false).

(** A run of calls on one risk manager, with the result of each call. *)
Inductive RiskCall :=
  | UpdatePnl (pnl_change : float)
  | CheckSignal (signal : TradeSignal).

Definition step (self : RiskManager) (c : RiskCall) : RiskManager * bool :=
  match c with
  | UpdatePnl d => update_pnl_and_check_kill self d
  | CheckSignal s => (self, check_signal self s)
  end.

Fixpoint run (self : RiskManager) (cs : list RiskCall) : RiskManager * list bool :=
  match cs with
  | [] => (self, [])
  | c :: cs' =>
      let '(self', r) := step self c in
      let '(self'', rs) := run self' cs' in
      (self'', r :: rs)
  end.

(** The states a risk manager goes through under a run of
    [update_pnl_and_check_kill] calls, the starting state first. *)
Fixpoint pnl_states (self : RiskManager) (deltas : list float) : list RiskManager :=
  self :: match deltas with
          | [] => []
          | d :: ds => pnl_states (fst (update_pnl_and_check_kill self d)) ds
          end.

(** The drawdown bookkeeping the spec states: [total <= peak] and
    [current_drawdown = peak - total >= 0], over finite values. *)
Definition drawdown_inv (self : RiskManager) : Prop :=
  is_finite (peak_equity_pnl self) = true /\
  is_finite (total_pnl self) = true /\
  PrimFloat.leb (total_pnl self) (peak_equity_pnl self) = true /\
  current_drawdown self = PrimFloat.sub (peak_equity_pnl self) (total_pnl self) /\
  PrimFloat.leb 0 (current_drawdown self) = true.

End Risk.

(** ** Rolling volatility ([src/math/volatility.rs]) *)

Module Vol.

(** The [VecDeque] of returns is a list, its front first. *)
Record RollingVolatility := {
  window_size : nat;
  returns : list float;
  last_price : option float;
  sum : float;
  sum_sq : float
}.

Definition new (n : nat) : RollingVolatility :=
  {| window_size := n; returns := []; last_price := None; sum := 0%float;
     sum_sq := 0%float |}.

Section Update.

(** [f64::ln]. *)
Variable ln : float -> float.

Local Open Scope float_scope.

(** The log return of [RollingVolatility::update]. *)
Definition log_return (last_price : option float) (new_price : float) : float :=
  match last_price with
  | Some last => if (0 <? last) && (0 <? new_price) then ln (new_price / last) else 0
  | None => 0
  end.

(** The standard deviation computed at the end of [update]. *)
Definition std_dev (returns : list float) (sum sum_sq : float) : float :=
  let n := F64.of_Z (Z.of_nat (length returns)) in
  if n <? 2 then 0
  else
    let mean := sum / n in
    let variance := (sum_sq / n) - (mean * mean) in
    sqrt (F64.max variance 0).

(** [RollingVolatility::update]: the new state and the returned sigma. *)
Definition update (self : RollingVolatility) (new_price_dec : Q)
  : RollingVolatility * float :=
  let new_price := Dec.to_f64 new_price_dec in
  let ret := log_return (last_price self) new_price in
  if (ret =? 0) && (match returns self with [] => true | _ => false end) then
    ({| window_size := window_size self; returns := returns self;
        last_price := Some new_price; sum := sum self; sum_sq := sum_sq self |}, 0)
  else
    let rs := returns self ++ [ret] in
    let s := sum self + ret in
    let sq := sum_sq self + ret * ret in
    let '(rs, s, sq) :=
      if Nat.ltb (window_size self) (length rs) then
        match rs with
        | old :: rs' => (rs', s - old, sq - old * old)
        | [] => (rs, s, sq)
        end
      else (rs, s, sq) in
    ({| window_size := window_size self; returns := rs;
        last_price := Some new_price; sum := s; sum_sq := sq |}, std_dev rs s sq).

End Update.

End Vol.

(** ** Strategy engine ([src/model/as_logic.rs]) *)

Module Strategy.

Record StrategyConfig := {
  risk_aversion_gamma : float;
  liquidity_k : float;
  min_spread_bps : Z;  (* u32 *)
  tick_size : float;
  max_inventory_usd : float;
  maturity_timestamp_ms : Z;  (* i64 *)
  terminal_dumping_factor : float;
  closing_window_seconds : Z  (* i64 *)
}.

Record PersistState := {
  inventory_shares : float;
  cash_balance : float;
  timestamp : Z
}.

(** A [std::sync::mpsc::Sender<PersistState>] with the channel behind it:
    [send] fails exactly when the receiving worker is gone, otherwise the
    snapshot is queued (the channel is unbounded). *)
Record Sender := {
  receiver_alive : bool;
  queued : list PersistState
}.

Definition send (tx : Sender) (s : PersistState) : Sender * bool :=
  if receiver_alive tx then
    ({| receiver_alive := true; queued := queued tx ++ [s] |}, true)
  else (tx, false).

Record OpinionGridStrategy := {
  cfg : StrategyConfig;
  vol_calc : Vol.RollingVolatility;
  current_inventory_shares : float;
  current_cash_balance : float;
  last_equity_mark : float;
  persist_sender : option Sender
}.

Definition new (c : StrategyConfig) (sender : option Sender) : OpinionGridStrategy :=
  {| cfg := c; vol_calc := Vol.new 100; current_inventory_shares := 0%float;
     current_cash_balance := 0%float; last_equity_mark := 0%float;
     persist_sender := sender |}.

Definition set_ledger (self : OpinionGridStrategy) (inv cash mark : float)
  (vol : Vol.RollingVolatility) (tx : option Sender) : OpinionGridStrategy :=
  {| cfg := cfg self; vol_calc := vol; current_inventory_shares := inv;
     current_cash_balance := cash; last_equity_mark := mark;
     persist_sender := tx |}.

(** [restore_state]. *)
Definition restore_state (self : OpinionGridStrategy) (saved_inv saved_cash : float)
  : OpinionGridStrategy :=
  set_ledger self saved_inv saved_cash (last_equity_mark self) (vol_calc self)
    (persist_sender self).

(** [on_fill]; [now_s] is [chrono::Utc::now().timestamp()]. The result of the
    send is discarded ([let _ = tx.send(..)]). *)
Definition on_fill (self : OpinionGridStrategy) (now_s : Z)
  (change_shares net_cash_flow : float) : OpinionGridStrategy :=
  let inv := (current_inventory_shares self + change_shares)%float in
  let cash := (current_cash_balance self + net_cash_flow)%float in
  let tx :=
    match persist_sender self with
    | Some tx =>
        Some (fst (send tx {| inventory_shares := inv; cash_balance := cash;
                              timestamp := now_s |}))
    | None => None
    end in
  set_ledger self inv cash (last_equity_mark self) (vol_calc self) tx.

(** [calculate_equity_change]: the new state and the PnL change. *)
Definition calculate_equity_change (self : OpinionGridStrategy) (current_mid_price : float)
  : OpinionGridStrategy * float :=
  let position_value := (current_inventory_shares self * current_mid_price)%float in
  let current_equity := (current_cash_balance self + position_value)%float in
  let mark e := set_ledger self (current_inventory_shares self)
                  (current_cash_balance self) e (vol_calc self) (persist_sender self) in
  if ((last_equity_mark self =? 0) && (current_inventory_shares self =? 0)
      && (current_cash_balance self =? 0))%float then (mark current_equity, 0%float)
  else if (last_equity_mark self =? 0)%float then (mark current_equity, 0%float)
  else (mark current_equity, (current_equity - last_equity_mark self)%float).

(** [i64] arithmetic wraps around (release build). *)
Definition wrap_i64 (z : Z) : Z := (z + 2 ^ 63) mod 2 ^ 64 - 2 ^ 63.

(** [round_to_tick]. *)
Definition round_to_tick (price tick : float) : Q :=
  let p := (F64.round (price / tick) * tick)%float in
  let p := F64.min (F64.max p 0.01) 0.99 in
  match Dec.from_f64_retain p with Some d => d | None => (1 # 2)%Q end.

Section Quotes.

(** [f64::ln]. *)
Variable ln : float -> float.

Local Open Scope float_scope.

(** [calculate_quotes]; [now] is [chrono::Utc::now().timestamp_millis()].
    The source's [closing_window_seconds * 1000.0 as f64] multiplies an [i64]
    by an [f64], which Rust rejects; it is read as
    [closing_window_seconds as f64 * 1000.0]. *)
Definition calculate_quotes (self : OpinionGridStrategy) (now : Z) (poly_mid_price : Q)
  : OpinionGridStrategy * (Q * Q) :=
  let c := cfg self in
  let time_left_ms := wrap_i64 (maturity_timestamp_ms c - now) in
  if (time_left_ms <=? 0)%Z then (self, (0%Q, 0%Q))
  else
    let t_days := F64.of_Z time_left_ms / (1000.0 * 3600.0 * 24.0) in
    let effective_gamma :=
      if (time_left_ms <? wrap_i64 (closing_window_seconds c * 1000))%Z then
        let progress := 1.0 - (F64.of_Z time_left_ms
                               / (F64.of_Z (closing_window_seconds c) * 1000.0)) in
        risk_aversion_gamma c * (1.0 + progress * terminal_dumping_factor c)
      else risk_aversion_gamma c in
    let '(vol, sigma) := Vol.update ln (vol_calc self) poly_mid_price in
    let mid_f64 := Dec.to_f64 poly_mid_price in
    let risk_term := current_inventory_shares self * effective_gamma * (sigma * sigma)
                     * F64.max t_days 0.01 in
    let reservation_price := mid_f64 - risk_term in
    let spread_term_1 := effective_gamma * (sigma * sigma) * F64.max t_days 0.01 in
    let spread_term_2 := (2.0 / effective_gamma)
                         * ln (1.0 + effective_gamma / liquidity_k c) in
    let half_spread := spread_term_1 + spread_term_2 in
    let min_half := (F64.of_Z (min_spread_bps c) / 10000.0) / 2.0 in
    let final_half_spread := F64.max half_spread min_half in
    let raw_bid := reservation_price - final_half_spread in
    let raw_ask := reservation_price + final_half_spread in
    (set_ledger self (current_inventory_shares self) (current_cash_balance self)
       (last_equity_mark self) vol (persist_sender self),
     (round_to_tick raw_bid (tick_size c), round_to_tick raw_ask (tick_size c))).

End Quotes.

End Strategy.

(** ** Strategy calls after start-up *)

Module StrategyRun.
Import Strategy.

(** The calls the engine makes on the strategy once [restore_state] has set
    the ledger: fills, equity marks and quote computations. *)
Inductive StrategyCall :=
  | OnFill (now_s : Z) (change_shares net_cash_flow : float)
  | EquityChange (current_mid_price : float)
  | CalculateQuotes (now : Z) (poly_mid_price : Q).

Section Run.
Variable ln : float -> float.

Definition step (self : OpinionGridStrategy) (c : StrategyCall) : OpinionGridStrategy :=
  match c with
  | OnFill now_s ch cf => on_fill self now_s ch cf
  | EquityChange m => fst (calculate_equity_change self m)
  | CalculateQuotes now m => fst (calculate_quotes ln self now m)
  end.

Definition run (self : OpinionGridStrategy) (cs : list StrategyCall) : OpinionGridStrategy :=
  fold_left step cs self.

End Run.

(** The arguments of the fills of a call sequence, in call order. *)
Definition fill_shares (cs : list StrategyCall) : list float :=
  flat_map (fun c => match c with OnFill _ ch _ => [ch] | _ => [] end) cs.

Definition fill_cash (cs : list StrategyCall) : list float :=
  flat_map (fun c => match c with OnFill _ _ cf => [cf] | _ => [] end) cs.

(** The f64 running sum of [xs] from [x0], added in order. *)
Definition running_sum (x0 : float) (xs : list float) : float :=
  fold_left (fun acc x => (acc + x)%float) xs x0.

End StrategyRun.

(** ** The market-data branch of the engine loop ([src/engine.rs]) *)

Module Engine.

(** The two quotes of a tick: a Buy at the bid and a Sell at the ask, both
    of [dec!(50)] dollars and [logic_tag: 1]. *)
Definition quote_signals (symbol now_ns : Z) (new_bid new_ask : Q) : list TradeSignal :=
  [ {| strategy_id := 1; target_exchange := OpinionLabs; symbol_id := symbol;
       side := Buy; price := new_bid; size_usd := 50; logic_tag := 1;
       created_at_ns := now_ns |};
    {| strategy_id := 1; target_exchange := OpinionLabs; symbol_id := symbol;
       side := Sell; price := new_ask; size_usd := 50; logic_tag := 1;
       created_at_ns := now_ns |} ].

(** [send_emergency_cancel]: the cancel-all sentinel. *)
Definition kill_signal (now_ns : Z) : TradeSignal :=
  {| strategy_id := 0; target_exchange := OpinionLabs; symbol_id := 0;
     side := Buy; price := 0; size_usd := 0; logic_tag := 99;
     created_at_ns := now_ns |}.

(** The outcome of one market-data message: the strategy and risk states,
    the signals published on the bus, and whether the loop breaks. *)
Record Tick := {
  tick_strategy : Strategy.OpinionGridStrategy;
  tick_risk : Risk.RiskManager;
  published : list TradeSignal;
  halted : bool
}.

Section MarketData.
Variable ln : float -> float.

(** Branch A of [run_strategy_engine] for an [OrderBookUpdate] with the
    given bid and ask levels, when [best_bid + best_ask] does not overflow
    (the panic is [EngineLoop.handle_book]'s [Crashed]); [now_ms] and
    [now_ns] are the clock readings. *)
Definition on_market_data (strategy : Strategy.OpinionGridStrategy)
  (risk_manager : Risk.RiskManager) (symbol : Z) (bids asks : list (Q * Q))
  (now_ms now_ns : Z) : Tick :=
  let best_bid := match bids with (p, _) :: _ => p | [] => 0%Q end in
  let best_ask := match asks with (p, _) :: _ => p | [] => 0%Q end in
  if Qeq_bool best_bid 0 || Qeq_bool best_ask 0 then
    {| tick_strategy := strategy; tick_risk := risk_manager; published := [];
       halted := false |}
  else
    let mid_price := ((best_bid + best_ask) / 2)%Q in
    let mid_f64 := Dec.to_f64 mid_price in
    let '(strategy, pnl_change) := Strategy.calculate_equity_change strategy mid_f64 in
    let '(risk_manager, fired) := Risk.update_pnl_and_check_kill risk_manager pnl_change in
    if fired then
      {| tick_strategy := strategy; tick_risk := risk_manager;
         published := [kill_signal now_ns]; halted := true |}
    else
      let '(strategy, (new_bid, new_ask)) :=
        Strategy.calculate_quotes ln strategy now_ms mid_price in
      let signals := quote_signals symbol now_ns new_bid new_ask in
      {| tick_strategy := strategy; tick_risk := risk_manager;
         published := filter (Risk.check_signal risk_manager) signals;
         halted := false |}.

End MarketData.

End Engine.

(** ** Signer to broadcaster hand-off ([src/execution/event_loop.rs]) *)

Module Exec.

(** A signed order, known here by its log tag. *)
Record SignedOrder := { order_id_tag : Z }.

(** A [tokio::sync::mpsc::channel::<SignedOrder>(capacity)]: its buffered
    orders and whether the broadcaster still holds the receiver. *)
Record BoundedChannel := {
  capacity : nat;
  buffer : list SignedOrder;
  receiver_open : bool
}.

(** The state of a signing task at its [tx_inner.send(signed).await]. *)
Inductive SignerState :=
  | Enqueued (ch : BoundedChannel)    (* the order is in the channel *)
  | Waiting                           (* suspended until a slot frees *)
  | Dropped (ch : BoundedChannel).    (* [Err]: the warning is logged *)

(** tokio's [Sender::send(..).await]: it completes at once when a slot is
    free, it waits while the channel is full, and it fails only when the
    receiver is closed. *)
Definition send_await (ch : BoundedChannel) (o : SignedOrder) : SignerState :=
  if negb (receiver_open ch) then Dropped ch
  else if Nat.ltb (length (buffer ch)) (capacity ch) then
    Enqueued {| capacity := capacity ch; buffer := buffer ch ++ [o];
                receiver_open := true |}
  else Waiting.

(** The pipeline channel of [run_execution_loop]. *)
Definition pipeline_capacity : nat := 1000.

(** The signing task after [create_signed_order] returned [Ok(signed)]. *)
Definition signer_after_signing (ch : BoundedChannel) (signed : SignedOrder) : SignerState :=
  send_await ch signed.

End Exec.

(** ** The volatility estimator over a price stream *)

Module VolRun.
Import Vol.

Section Feed.
Variable ln : float -> float.

(** Successive [RollingVolatility::update] calls on one estimator: the final
    state and the sigmas returned, in call order. *)
Fixpoint feed (self : RollingVolatility) (prices : list Q)
  : RollingVolatility * list float :=
  match prices with
  | [] => (self, [])
  | p :: ps =>
      let '(self', sigma) := update ln self p in
      let '(self'', sigmas) := feed self' ps in
      (self'', sigma :: sigmas)
  end.

End Feed.

End VolRun.

(** ** Alarms of a risk-manager run *)

Module RiskRun.
Import Risk.

(** How many [update_pnl_and_check_kill] calls of a run returned [true],
    given the calls and their results in order. *)
Fixpoint alarms (cs : list RiskCall) (rs : list bool) : nat :=
  match cs, rs with
  | UpdatePnl _ :: cs', true :: rs' => S (alarms cs' rs')
  | _ :: cs', _ :: rs' => alarms cs' rs'
  | _, _ => 0
  end.

End RiskRun.

(** ** State persistence ([spawn_persistence_worker], [load_initial_state]) *)

Module Persist.
Import Strategy.
Import String.
Local Open Scope string_scope.

(** [serde_json::Value]; a number is an integer ([i64], [u64]) or a finite
    [f64]. An object is the list of its entries, keys distinct. *)
Inductive Json :=
  | JNull
  | JBool (b : bool)
  | JInt (z : Z)
  | JFloat (x : float)
  | JString (s : string)
  | JArray (items : list Json)
  | JObject (fields : list (string * Json)).

(** [v[key]]: the entry's value in an object; [Null] when the key is missing
    or [v] is not an object. *)
Definition index (v : Json) (key : string) : Json :=
  match v with
  | JObject fs =>
      match find (fun kv => String.eqb (fst kv) key) fs with
      | Some (_, x) => x
      | None => JNull
      end
  | _ => JNull
  end.

(** [Value::as_f64]: an integer is converted with [as f64]. *)
Definition as_f64 (v : Json) : option float :=
  match v with
  | JInt z => Some (F64.of_Z z)
  | JFloat x => Some x
  | _ => None
  end.

(** [serde_json::to_value(&x)] for an [f64] ([Number::from_f64]): [Null]
    when [x] is NaN or infinite. *)
Definition of_f64 (x : float) : Json := if is_finite x then JFloat x else JNull.

(** The [json!] document the worker writes for a snapshot. *)
Definition json_of_state (s : PersistState) : Json :=
  JObject [("inventory_shares", of_f64 (inventory_shares s));
           ("cash_balance", of_f64 (cash_balance s));
           ("timestamp", JInt (timestamp s))].

Section Text.

(** What writing a document as text ([serde_json::to_string]) and parsing
    it back ([serde_json::from_str]) does to an [f64] number: serde_json's
    default parser does not promise the same float back, so it is left
    open. Null, booleans, integers, strings, arrays and objects come back
    as written. *)
Variable reparse : float -> float.

Fixpoint read_back (v : Json) : Json :=
  match v with
  | JFloat x => JFloat (reparse x)
  | JArray items => JArray (map read_back items)
  | JObject fs => JObject (map (fun kv => (fst kv, read_back (snd kv))) fs)
  | _ => v
  end.

End Text.

(** [load_initial_state]: [doc] is the parsed state file, [None] when the
    file cannot be read or is not JSON. A missing or non-numeric entry
    gives [0.0]. *)
Definition load_initial_state (doc : option Json) : float * float :=
  match doc with
  | Some v =>
      (match as_f64 (index v "inventory_shares") with Some x => x | None => 0%float end,
       match as_f64 (index v "cash_balance") with Some x => x | None => 0%float end)
  | None => (0%float, 0%float)
  end.

(** One round of the worker loop: [rx.recv()] returns [first], the
    [try_recv] drain returns [rest] (what queued up meanwhile), then the
    [fs::write] of the temporary file and the [fs::rename] over the state
    file succeed or fail. *)
Record Round := {
  first : PersistState;
  rest : list PersistState;
  write_ok : bool;
  rename_ok : bool
}.

(** The state file after a round: only the newest snapshot of the round
    is written, and the file changes only when both steps succeed. *)
Definition round_step (file : option Json) (r : Round) : option Json :=
  let latest_state := last (rest r) (first r) in
  if write_ok r && rename_ok r then Some (json_of_state latest_state) else file.

Definition persistence_worker (file : option Json) (rounds : list Round) : option Json :=
  fold_left round_step rounds file.

(** The snapshots the worker takes off the channel, in order. *)
Definition received (rounds : list Round) : list PersistState :=
  flat_map (fun r => first r :: rest r) rounds.

(** The snapshots queued on a strategy's persistence channel. *)
Definition pending (st : OpinionGridStrategy) : list PersistState :=
  match persist_sender st with Some tx => queued tx | None => [] end.

End Persist.

(** ** The engine's main loop ([run_strategy_engine]) *)

Module EngineLoop.
Import Strategy.

(** [update.bids.get(0).map(|x| x.0).unwrap_or(dec!(0))]. *)
Definition best_price (levels : list (Q * Q)) : Q :=
  match levels with (p, _) :: _ => p | [] => 0%Q end.

(** A message of the engine's subscriber as the loop sees it: an
    [OrderBookUpdate] (with the clock readings taken while handling it), an
    [InventoryUpdate] (the source reads a [cost_usd] that [InventoryUpdate]
    does not declare; it is the fill's cash flow here), or nothing usable
    (no message, or bytes that decode as neither). *)
Inductive Message :=
  | BookUpdate (symbol : Z) (bids asks : list (Q * Q)) (now_ms now_ns : Z)
  | InvUpdate (change cost_usd : float) (now_s : Z)
  | NoUpdate.

(** How handling an [OrderBookUpdate] ends: [best_bid + best_ask]
    (engine.rs:154) panics with "Addition overflowed" when the sum does not
    fit a [Decimal], which ends the engine thread; otherwise the tick runs
    as [Engine.on_market_data]. *)
Inductive Outcome :=
  | Crashed
  | Handled (t : Engine.Tick).

Record LoopEnd := {
  end_strategy : OpinionGridStrategy;
  end_risk : Risk.RiskManager;
  end_published : list TradeSignal;
  end_halted : bool;
  end_crashed : bool
}.

Section Loop.
Variable ln : float -> float.

(** Whether rust_decimal's [+] overflows on two decimals (a magnitude
    above about 7.9e28 = 2^96 - 1; the exact edge depends on the operands'
    scales, so it is left open). *)
Variable add_overflows : Q -> Q -> bool.

(** Branch A of the loop: the zero check, then the sum for the mid-price,
    then the tick. *)
Definition handle_book (strategy : OpinionGridStrategy) (risk_manager : Risk.RiskManager)
  (symbol : Z) (bids asks : list (Q * Q)) (now_ms now_ns : Z) : Outcome :=
  let best_bid := best_price bids in
  let best_ask := best_price asks in
  if Qeq_bool best_bid 0 || Qeq_bool best_ask 0 then
    Handled (Engine.on_market_data ln strategy risk_manager symbol bids asks now_ms now_ns)
  else if add_overflows best_bid best_ask then Crashed
  else Handled (Engine.on_market_data ln strategy risk_manager symbol bids asks now_ms now_ns).

(** The [while running] loop over the messages received before Ctrl+C
    clears [running]; a tick that fires the kill switch breaks out, a
    panic ends the thread. *)
Fixpoint main_loop (strategy : OpinionGridStrategy) (risk_manager : Risk.RiskManager)
  (msgs : list Message) : LoopEnd :=
  match msgs with
  | [] => {| end_strategy := strategy; end_risk := risk_manager;
             end_published := []; end_halted := false; end_crashed := false |}
  | BookUpdate symbol bids asks now_ms now_ns :: rest =>
      match handle_book strategy risk_manager symbol bids asks now_ms now_ns with
      | Crashed =>
          {| end_strategy := strategy; end_risk := risk_manager;
             end_published := []; end_halted := false; end_crashed := true |}
      | Handled t =>
          if Engine.halted t then
            {| end_strategy := Engine.tick_strategy t; end_risk := Engine.tick_risk t;
               end_published := Engine.published t; end_halted := true;
               end_crashed := false |}
          else
            let e := main_loop (Engine.tick_strategy t) (Engine.tick_risk t) rest in
            {| end_strategy := end_strategy e; end_risk := end_risk e;
               end_published := Engine.published t ++ end_published e;
               end_halted := end_halted e; end_crashed := end_crashed e |}
      end
  | InvUpdate change cost now_s :: rest =>
      main_loop (on_fill strategy now_s change cost) risk_manager rest
  | NoUpdate :: rest => main_loop strategy risk_manager rest
  end.

(** The loop and the shutdown after it, which sends the cancel-all three
    times (at clock readings [t1], [t2], [t3]), unless the thread panicked:
    the loop's end and every signal published, in order. *)
Definition run_strategy_engine (strategy : OpinionGridStrategy)
  (risk_manager : Risk.RiskManager) (msgs : list Message) (t1 t2 t3 : Z)
  : LoopEnd * list TradeSignal :=
  let e := main_loop strategy risk_manager msgs in
  if end_crashed e then (e, end_published e)
  else (e, end_published e ++ [Engine.kill_signal t1; Engine.kill_signal t2; Engine.kill_signal t3]).

End Loop.

End EngineLoop.

(** ** Signal handling in the execution loop ([run_execution_loop]) *)

Module ExecLoop.

(** What the signer loop does with a decoded signal: a [logic_tag] of 99
    starts a cancel-all task, any other signal a signing task. *)
Inductive Task :=
  | CancelTask
  | SignTask (signal : TradeSignal).

Definition dispatch (signal : TradeSignal) : Task :=
  if (logic_tag signal =? 99)%Z then CancelTask else SignTask signal.

(** The cancel task's [for i in 1..=3] loop: the attempts made, given which
    attempts of [cancel_all] return [Ok]; the loop breaks at the first. *)
Fixpoint cancel_attempts (tries i : nat) (ok : nat -> bool) : list nat :=
  match tries with
  | O => []
  | S tries' => i :: (if ok i then [] else cancel_attempts tries' (S i) ok)
  end.

Definition cancel_task (ok : nat -> bool) : list nat := cancel_attempts 3 1 ok.

End ExecLoop.

(** ** ZeroMQ framing ([src/infrastructure/messaging.rs]) *)

Module Messaging.

(** A message is a list of frames, a frame a list of bytes. *)
Definition Frame := list Byte.byte.

Definition topic_MD : Frame := [Byte.x4d; Byte.x44].
Definition topic_SG : Frame := [Byte.x53; Byte.x47].

(** [send_book_update] and [send_signal]: the topic frame, then the bincode
    bytes. *)
Definition send_book_update (encoded : Frame) : list Frame := [topic_MD; encoded].
Definition send_signal (encoded : Frame) : list Frame := [topic_SG; encoded].

Fixpoint is_prefix (p f : Frame) : bool :=
  match p, f with
  | [], _ => true
  | b :: p', c :: f' => Byte.eqb b c && is_prefix p' f'
  | _ :: _, [] => false
  end.

(** A SUB socket subscribed to [topic] receives the messages whose first
    frame starts with [topic]. *)
Definition delivered (topic : Frame) (msg : list Frame) : bool :=
  match msg with f :: _ => is_prefix topic f | [] => false end.

(** [recv_raw_bytes]: [msg] is the result of [recv_multipart], [None] on an
    error; a message of fewer than two frames gives [None]. *)
Definition recv_raw_bytes (msg : option (list Frame)) : option Frame :=
  match msg with Some (_ :: m1 :: _) => Some m1 | _ => None end.

End Messaging.

(** ** Configurations used by the properties *)

Module Scenarios.
Import Strategy.

(** The [StrategyConfig] built in [run_strategy_engine]. *)
Definition engine_config : StrategyConfig :=
  {| risk_aversion_gamma := 0.05; liquidity_k := 5000; min_spread_bps := 50;
     tick_size := 0.01; max_inventory_usd := 2000;
     maturity_timestamp_ms := 1735689599000; terminal_dumping_factor := 10;
     closing_window_seconds := 3600 |}.

(** Scenario S1 of the spec: gamma 0.005, k 5000, 100 bps, tick 0.01; the
    fields S1 leaves open are those of [engine_config]. *)
Definition s1_config : StrategyConfig :=
  {| risk_aversion_gamma := 0.005; liquidity_k := 5000; min_spread_bps := 100;
     tick_size := 0.01; max_inventory_usd := 2000;
     maturity_timestamp_ms := 1735689599000; terminal_dumping_factor := 10;
     closing_window_seconds := 3600 |}.

(** A clock reading (ms) 30 days before that maturity. *)
Definition thirty_days_before : Z := 1735689599000 - 30 * 86400000.

End Scenarios.

(** ** Classes of spec floats *)

Module SpecFloatClasses.

(** The signed value [m * 2^e], counted in units of [2^ez]. *)
Definition aligned (s : bool) (m : positive) (e ez : Z) : Z :=
  cond_Zopp s (Zpos m * 2 ^ (e - ez)).

(** Spec floats that are zero, positive or [+inf]. *)
Definition nonneg_sf (f : spec_float) : bool :=
  match f with
  | S754_zero _ | S754_finite false _ _ | S754_infinity false => true
  | _ => false
  end.

(** Spec floats that are zero or finite. *)
Definition finite_sf (f : spec_float) : bool :=
  match f with S754_zero _ | S754_finite _ _ _ => true | _ => false end.

(** Spec floats other than NaN. *)
Definition notnan_sf (f : spec_float) : bool :=
  match f with S754_nan => false | _ => true end.

End SpecFloatClasses.

(** * Properties *)

(** ** binary64 facts

    What the proofs use of IEEE arithmetic, derived from the specification of
    the primitive floats ([FloatAxioms]): the order of finite floats is the
    order of their values, a difference [x - y] with [y <= x] is not negative,
    a square root of a non-negative float is not negative, NaN propagates. *)

Module FloatFacts.
Import SpecFloatClasses.

Local Open Scope Z_scope.

Lemma digits2_pos_size (m : positive) : digits2_pos m = Pos.size m.
Proof. induction m; simpl; try rewrite IHm; reflexivity. Qed.

Lemma bounded_size m e : bounded prec emax m e = true ->
  Zpos (Pos.size m) <= 53 /\ -1074 <= e /\ (-1074 < e -> Zpos (Pos.size m) = 53).
Proof.
  unfold bounded, canonical_mantissa, fexp, emin. rewrite digits2_pos_size.
  intros H. apply andb_prop in H as [H1 H2]. apply Z.eqb_eq in H1.
  unfold prec, emax in *. lia.
Qed.

Lemma size_bounds m : 2 ^ (Zpos (Pos.size m) - 1) <= Zpos m < 2 ^ Zpos (Pos.size m).
Proof.
  pose proof (Pos.size_gt m) as Hgt. pose proof (Pos.size_le m) as Hle.
  apply Pos2Z.pos_lt_pos in Hgt. apply Pos2Z.pos_le_pos in Hle.
  rewrite Pos2Z.inj_pow in Hgt, Hle. change (Zpos m~0) with (2 * Zpos m) in Hle.
  split; [|exact Hgt].
  assert (Hs : 2 ^ Zpos (Pos.size m) = 2 * 2 ^ (Zpos (Pos.size m) - 1)).
  { rewrite <- Z.pow_succ_r by lia. f_equal. lia. }
  lia.
Qed.

Lemma iter_xO m d : Zpos (Pos.iter xO m d) = Zpos m * 2 ^ Zpos d.
Proof.
  induction d as [|d IH] using Pos.peano_ind.
  - simpl. lia.
  - rewrite Pos.iter_succ, Pos2Z.inj_xO, IH, Pos2Z.inj_succ, Z.pow_succ_r by lia. ring.
Qed.

Lemma shl_align_fst mx ex ez : ez <= ex ->
  Zpos (fst (shl_align mx ex ez)) = Zpos mx * 2 ^ (ex - ez).
Proof.
  intros H. unfold shl_align. destruct (ez - ex) eqn:E; cbn [fst].
  - replace (ex - ez) with 0 by lia. rewrite Z.pow_0_r. lia.
  - lia.
  - rewrite iter_xO. f_equal. f_equal. lia.
Qed.

Lemma shl_align_fst_cond s mx ex ez : ez <= ex ->
  cond_Zopp s (Zpos (fst (shl_align mx ex ez))) = cond_Zopp s (Zpos mx * 2 ^ (ex - ez)).
Proof. intros H. rewrite shl_align_fst by exact H. reflexivity. Qed.

Lemma lt_exp m1 e1 m2 e2 : bounded prec emax m1 e1 = true -> bounded prec emax m2 e2 = true ->
  e1 < e2 -> Zpos m1 < Zpos m2 * 2 ^ (e2 - e1).
Proof.
  intros B1 B2 He.
  destruct (bounded_size _ _ B1) as (S1 & E1 & _).
  destruct (bounded_size _ _ B2) as (_ & _ & N2).
  specialize (N2 ltac:(lia)).
  pose proof (size_bounds m1) as [_ U1]. pose proof (size_bounds m2) as [L2 _].
  rewrite N2 in L2. simpl in L2.
  assert (U1' : Zpos m1 < 2 ^ 53).
  { eapply Z.lt_le_trans; [exact U1|]. apply Z.pow_le_mono_r; lia. }
  assert (P : 2 <= 2 ^ (e2 - e1)).
  { replace 2 with (2 ^ 1) at 1 by reflexivity. apply Z.pow_le_mono_r; lia. }
  change (2 ^ 53) with 9007199254740992 in U1'. nia.
Qed.

Lemma pow_pos_nonneg k : 0 <= k -> 0 < 2 ^ k.
Proof. intros; apply Z.pow_pos_nonneg; lia. Qed.

Lemma compare_finite s1 m1 e1 s2 m2 e2 :
  bounded prec emax m1 e1 = true -> bounded prec emax m2 e2 = true ->
  SFcompare (S754_finite s1 m1 e1) (S754_finite s2 m2 e2) =
  Some (Z.compare (aligned s1 m1 e1 (Z.min e1 e2)) (aligned s2 m2 e2 (Z.min e1 e2))).
Proof.
  intros B1 B2. unfold aligned. cbn [SFcompare].
  assert (P1 : 0 < 2 ^ (e1 - Z.min e1 e2)) by (apply pow_pos_nonneg; lia).
  assert (P2 : 0 < 2 ^ (e2 - Z.min e1 e2)) by (apply pow_pos_nonneg; lia).
  destruct (Z.compare_spec e1 e2) as [He|He|He].
  - subst e2. rewrite Z.min_id, Z.sub_diag, Z.pow_0_r, !Z.mul_1_r.
    destruct s1, s2; reflexivity.
  - rewrite Z.min_l in * by lia. rewrite Z.sub_diag, Z.pow_0_r, Z.mul_1_r.
    pose proof (lt_exp _ _ _ _ B1 B2 He).
    destruct s1, s2; f_equal; symmetry; unfold cond_Zopp; first [apply Z.compare_lt_iff | apply Z.compare_gt_iff]; nia.
  - rewrite Z.min_r in * by lia. rewrite Z.sub_diag, Z.pow_0_r, Z.mul_1_r.
    pose proof (lt_exp _ _ _ _ B2 B1 He).
    destruct s1, s2; f_equal; symmetry; unfold cond_Zopp; first [apply Z.compare_lt_iff | apply Z.compare_gt_iff]; nia.
Qed.

Lemma iter_pos_pres {A : Type} (P : A -> Prop) (f : A -> A) :
  (forall x, P x -> P (f x)) -> forall n x, P x -> P (iter_pos f n x).
Proof. intros Hf n. induction n; intros x Hx; simpl; auto. Qed.

Lemma shr_1_nonneg mrs : 0 <= shr_m mrs -> 0 <= shr_m (shr_1 mrs).
Proof.
  destruct mrs as [m r s]. simpl. intros H.
  destruct m as [|p|p]; [simpl; lia| |lia]. destruct p; simpl; lia.
Qed.

Lemma shr_fexp_nonneg m e l : 0 <= m -> 0 <= shr_m (fst (shr_fexp prec emax m e l)).
Proof.
  intros H. unfold shr_fexp, shr.
  assert (H0 : 0 <= shr_m (shr_record_of_loc m l)) by (destruct l as [|[]]; simpl; lia).
  destruct (_ - e); simpl; auto.
  apply (iter_pos_pres (fun r => 0 <= shr_m r)); auto using shr_1_nonneg.
Qed.

Lemma round_nearest_even_nonneg m l : 0 <= m -> 0 <= round_nearest_even m l.
Proof. intros H. destruct l as [|[]]; simpl; try destruct (Z.even m); lia. Qed.

Lemma binary_round_aux_nonneg mx ex lx :
  0 <= mx -> nonneg_sf (binary_round_aux prec emax false mx ex lx) = true.
Proof.
  intros H. unfold binary_round_aux.
  pose proof (shr_fexp_nonneg mx ex lx H) as H1.
  destruct (shr_fexp prec emax mx ex lx) as [mrs' e'].
  pose proof (shr_fexp_nonneg (round_nearest_even (shr_m mrs') (loc_of_shr_record mrs'))
                e' loc_Exact (round_nearest_even_nonneg _ _ H1)) as H2.
  destruct (shr_fexp prec emax _ e' loc_Exact) as [mrs'' e''].
  simpl in H2. destruct (shr_m mrs''); [reflexivity| |lia].
  destruct (e'' <=? emax - prec); reflexivity.
Qed.

Lemma binary_normalize_nonneg z e :
  0 <= z -> nonneg_sf (binary_normalize prec emax z e false) = true.
Proof.
  intros H. destruct z as [|p|p]; [reflexivity| |lia].
  unfold binary_normalize, binary_round.
  destruct (shl_align p e _). apply binary_round_aux_nonneg. lia.
Qed.

Lemma SFleb_zero_nonneg f : nonneg_sf f = true -> SFleb (S754_zero false) f = true.
Proof. destruct f as [[]|[]| |[] m e]; intros H; try discriminate; reflexivity. Qed.

(** The difference of two finite floats [y <= x] is not negative. *)
Lemma SFsub_nonneg x y :
  valid_binary x = true -> valid_binary y = true ->
  finite_sf x = true -> finite_sf y = true -> SFleb y x = true ->
  nonneg_sf (SFsub prec emax x y) = true.
Proof.
  intros Vx Vy Fx Fy Hle.
  destruct x as [sx|sx| |sx mx ex]; try discriminate;
  destruct y as [sy|sy| |sy my ey]; try discriminate.
  - simpl. destruct sx, sy; reflexivity.
  - destruct sy; [reflexivity|discriminate].
  - destruct sx; [discriminate|reflexivity].
  - simpl in Vx, Vy. unfold SFleb in Hle.
    rewrite (compare_finite _ _ _ _ _ _ Vy Vx) in Hle.
    unfold SFsub.
    rewrite !shl_align_fst_cond by lia.
    apply binary_normalize_nonneg.
    unfold aligned in Hle. rewrite Z.min_comm in Hle.
    destruct (Z.compare_spec (cond_Zopp sy (Z.pos my * 2 ^ (ey - Z.min ex ey)))
                             (cond_Zopp sx (Z.pos mx * 2 ^ (ex - Z.min ex ey))));
      try discriminate; lia.
Qed.


Lemma SFcompare_swap f1 f2 : SFcompare f2 f1 = option_map CompOpp (SFcompare f1 f2).
Proof.
  destruct f1 as [s1|s1| |s1 m1 e1], f2 as [s2|s2| |s2 m2 e2];
    try destruct s1; try destruct s2; try reflexivity; cbn [SFcompare option_map].
  all: rewrite (Z.compare_antisym e1 e2); destruct (e1 ?= e2)%Z; simpl; try reflexivity.
  all: change (Pos.compare_cont Eq m2 m1) with (Pos.compare m2 m1);
       change (Pos.compare_cont Eq m1 m2) with (Pos.compare m1 m2);
       rewrite (Pos.compare_antisym m1 m2); destruct (m1 ?= m2)%positive; reflexivity.
Qed.

Lemma SFcompare_some f1 f2 : finite_sf f1 = true -> finite_sf f2 = true ->
  exists c, SFcompare f1 f2 = Some c.
Proof.
  destruct f1 as [s1|s1| |s1 m1 e1], f2 as [s2|s2| |s2 m2 e2]; intros H1 H2;
    try discriminate; eexists; reflexivity.
Qed.

Lemma SFcompare_refl f : finite_sf f = true -> SFcompare f f = Some Eq.
Proof.
  destruct f as [s|s| |s m e]; intros H; try discriminate; [reflexivity|].
  destruct s; cbn [SFcompare]; rewrite Z.compare_refl, Pos.compare_cont_refl; reflexivity.
Qed.

Lemma SFcompare_some_nn f1 f2 : notnan_sf f1 = true -> notnan_sf f2 = true ->
  exists c, SFcompare f1 f2 = Some c.
Proof.
  destruct f1 as [s1|s1| |s1 m1 e1], f2 as [s2|s2| |s2 m2 e2]; intros H1 H2;
    try discriminate; eexists; reflexivity.
Qed.

Lemma SFleb_zero_nonneg_inv f : SFleb (S754_zero false) f = true -> nonneg_sf f = true.
Proof. destruct f as [[]|[]| |[] m e]; intros H; try discriminate; reflexivity. Qed.

Lemma SFsqrt_nonneg f : nonneg_sf f = true -> nonneg_sf (SFsqrt prec emax f) = true.
Proof.
  destruct f as [s|s| |s m e]; intros H; try discriminate.
  - reflexivity.
  - destruct s; [discriminate|reflexivity].
  - destruct s; [discriminate|]. unfold SFsqrt, SFsqrt_core_binary.
    match goal with |- context [Z.sqrtrem ?n] =>
      pose proof (Z.sqrtrem_sqrt n) as Hq; destruct (Z.sqrtrem n) as [q r] end.
    simpl in Hq. apply binary_round_aux_nonneg. rewrite Hq. apply Z.sqrt_nonneg.
Qed.




Local Open Scope float_scope.

Lemma Prim2SF_zero : Prim2SF 0 = S754_zero false.
Proof. vm_compute. reflexivity. Qed.

Lemma Prim2SF_infinity : Prim2SF infinity = S754_infinity false.
Proof. vm_compute. reflexivity. Qed.

Lemma Prim2SF_nan : Prim2SF nan = S754_nan.
Proof. vm_compute. reflexivity. Qed.

(** [f64::is_finite]. *)
Lemma is_finite_spec x : is_finite x = finite_sf (Prim2SF x).
Proof.
  unfold is_finite, is_nan, is_infinity.
  rewrite !eqb_spec, abs_spec, Prim2SF_infinity.
  destruct (Prim2SF x) as [s|s| |s m e]; try destruct s; try reflexivity;
    unfold SFeqb; cbn [SFabs SFcompare];
    rewrite ?Z.compare_refl, ?Pos.compare_cont_refl; reflexivity.
Qed.

Lemma leb_refl x : is_finite x = true -> (x <=? x) = true.
Proof.
  rewrite is_finite_spec, leb_spec. intros H. unfold SFleb.
  rewrite SFcompare_refl by exact H. reflexivity.
Qed.

Lemma ltb_leb x y : (x <? y) = true -> (x <=? y) = true.
Proof.
  rewrite ltb_spec, leb_spec. unfold SFltb, SFleb.
  destruct (SFcompare _ _) as [[]|]; congruence.
Qed.

Lemma ltb_false_leb x y : is_finite x = true -> is_finite y = true ->
  (x <? y) = false -> (y <=? x) = true.
Proof.
  rewrite !is_finite_spec, ltb_spec, leb_spec. unfold SFltb, SFleb.
  rewrite (SFcompare_swap (Prim2SF x)). intros Fx Fy.
  destruct (SFcompare_some _ _ Fx Fy) as [c ->]. destruct c; simpl; congruence.
Qed.

Lemma sub_nonneg x y : is_finite x = true -> is_finite y = true ->
  (y <=? x) = true -> (0 <=? x - y) = true.
Proof.
  rewrite !is_finite_spec, !leb_spec, sub_spec, Prim2SF_zero. intros Fx Fy Hle.
  apply SFleb_zero_nonneg, SFsub_nonneg; auto using Prim2SF_valid.
Qed.

Lemma sub_self x : is_finite x = true -> x - x = 0.
Proof.
  rewrite is_finite_spec. intros F. apply Prim2SF_inj.
  rewrite sub_spec, Prim2SF_zero. unfold SF64sub.
  destruct (Prim2SF x) as [s|s| |s m e]; try discriminate.
  - destruct s; reflexivity.
  - unfold SFsub. rewrite Z.sub_diag. reflexivity.
Qed.

Lemma add_finite_l x y : is_finite (x + y) = true -> is_finite x = true.
Proof.
  rewrite !is_finite_spec, add_spec. unfold SF64add.
  destruct (Prim2SF x) as [s|s| |s m e]; try reflexivity;
  destruct (Prim2SF y) as [s'|s'| |s' m' e']; try destruct s; try destruct s';
    simpl; congruence.
Qed.

Lemma is_nan_spec x : is_nan x = negb (notnan_sf (Prim2SF x)).
Proof.
  unfold is_nan. rewrite eqb_spec.
  destruct (Prim2SF x) as [s|s| |s m e]; try destruct s; try reflexivity;
    unfold SFeqb; cbn [SFcompare];
    rewrite ?Z.compare_refl, ?Pos.compare_cont_refl; reflexivity.
Qed.

Lemma ltb_false_leb_nn x y : is_nan x = false -> is_nan y = false ->
  (x <? y) = false -> (y <=? x) = true.
Proof.
  rewrite !is_nan_spec, ltb_spec, leb_spec. unfold SFltb, SFleb.
  rewrite (SFcompare_swap (Prim2SF x)). intros Nx Ny.
  apply negb_false_iff in Nx, Ny.
  destruct (SFcompare_some_nn _ _ Nx Ny) as [c ->]. destruct c; simpl; congruence.
Qed.

Lemma finite_not_nan x : is_finite x = true -> is_nan x = false.
Proof. unfold is_finite. destruct (is_nan x); simpl; intros H; [discriminate H | reflexivity]. Qed.

Lemma sqrt_nonneg x : (0 <=? x) = true -> (0 <=? sqrt x) = true.
Proof.
  rewrite !leb_spec, sqrt_spec, Prim2SF_zero. intros H.
  apply SFleb_zero_nonneg, SFsqrt_nonneg, SFleb_zero_nonneg_inv, H.
Qed.

(** [v.max(0.0)] is never below zero, NaN included. *)
Lemma max_zero_nonneg v : (0 <=? F64.max v 0) = true.
Proof.
  unfold F64.max. destruct (is_nan v) eqn:Hv; [reflexivity|].
  change (is_nan 0) with false. cbv iota.
  destruct (v <? 0) eqn:Hlt; [reflexivity|].
  apply ltb_false_leb_nn; [exact Hv | reflexivity | exact Hlt].
Qed.


(** NaN absorbs the arithmetic operations. *)
Lemma nan_mul_l x : nan * x = nan.
Proof. apply Prim2SF_inj. rewrite mul_spec, Prim2SF_nan. reflexivity. Qed.

Lemma nan_sub_l x : nan - x = nan.
Proof. apply Prim2SF_inj. rewrite sub_spec, Prim2SF_nan. reflexivity. Qed.

Lemma nan_add_l x : nan + x = nan.
Proof. apply Prim2SF_inj. rewrite add_spec, Prim2SF_nan. reflexivity. Qed.

Lemma nan_div_l x : nan / x = nan.
Proof. apply Prim2SF_inj. rewrite div_spec, Prim2SF_nan. reflexivity. Qed.

Lemma sub_nan_r x : x - nan = nan.
Proof.
  apply Prim2SF_inj. rewrite sub_spec, Prim2SF_nan.
  destruct (Prim2SF x) as [[]|[]| |[] m e]; reflexivity.
Qed.

Lemma is_nan_nan x : is_nan x = true -> x = nan.
Proof.
  rewrite is_nan_spec. intros H. apply Prim2SF_inj. rewrite Prim2SF_nan.
  destruct (Prim2SF x); try discriminate; reflexivity.
Qed.

Lemma ltb_not_nan x y : (x <? y) = true -> is_nan x = false.
Proof.
  rewrite is_nan_spec, ltb_spec.
  destruct (Prim2SF x); intros H; try reflexivity. discriminate H.
Qed.

Lemma ltb_eqb_refl x y : (x <? y) = true -> (x =? x) = true.
Proof.
  intros H. pose proof (ltb_not_nan x y H) as Hn. unfold is_nan in Hn.
  destruct (x =? x); [reflexivity | discriminate Hn].
Qed.

Close Scope float_scope.

End FloatFacts.

(** ** Properties of the volatility estimator *)

Module VolFacts.
Import Vol.

Local Open Scope float_scope.

Lemma std_dev_nonneg rs s sq : (0 <=? std_dev rs s sq) = true.
Proof.
  unfold std_dev. cbv zeta. destruct (_ <? 2); [reflexivity|].
  apply FloatFacts.sqrt_nonneg, FloatFacts.max_zero_nonneg.
Qed.

Lemma std_dev_small rs s sq : (length rs < 2)%nat -> std_dev rs s sq = 0.
Proof.
  intros H. destruct rs as [|x [|y rs]]; [reflexivity | reflexivity | simpl in H; lia].
Qed.

Lemma std_dev_cases rs s sq :
  (2 <= length rs)%nat \/ std_dev rs s sq = 0.
Proof.
  destruct (Nat.le_gt_cases 2 (length rs)) as [H|H]; [left; exact H|].
  right. apply std_dev_small. exact H.
Qed.

(** C9 (amended): one [update] call. The returned sigma is never below
    zero, and it is zero unless at least two returns are held. A zero
    return met while the window is empty is not pushed: only [last_price]
    changes. Any other return [r] is pushed, [sum] and [sum_sq] grow by
    [r] and [r * r], the oldest return is popped and subtracted when the
    window holds more than [window_size], and sigma is [std_dev] of the
    new window: 0 below two samples, otherwise
    [sqrt(max(sum_sq/n - (sum/n)^2, 0))]. *)
Theorem update_spec (ln : float -> float) (self : RollingVolatility) (p : Q) :
  let r := log_return ln (last_price self) (Dec.to_f64 p) in
  let rs := returns self ++ [r] in
  let pop := Nat.ltb (window_size self) (length rs) in
  let self' := fst (update ln self p) in
  let sigma := snd (update ln self p) in
  (0 <=? sigma) = true /\
  ((2 <= length (returns self'))%nat \/ sigma = 0) /\
  last_price self' = Some (Dec.to_f64 p) /\
  (((r =? 0) = true /\ returns self = [] /\
    returns self' = [] /\ sum self' = sum self /\ sum_sq self' = sum_sq self)
   \/
   (((r =? 0) = false \/ returns self <> []) /\
    returns self' = (if pop then tl rs else rs) /\
    sum self' = (if pop then (sum self + r) - hd 0 rs else sum self + r) /\
    sum_sq self' = (if pop then (sum_sq self + r * r) - hd 0 rs * hd 0 rs
                    else sum_sq self + r * r) /\
    sigma = std_dev (returns self') (sum self') (sum_sq self'))).
Proof.
  intros r rs pop self' sigma. subst self' sigma pop rs r.
  unfold update. cbv zeta.
  set (r := log_return ln (last_price self) (Dec.to_f64 p)).
  destruct ((r =? 0) && match returns self with [] => true | _ => false end) eqn:Hc.
  - apply andb_prop in Hc as [Hr He].
    destruct (returns self) eqn:Er; [|discriminate He]. cbn [fst snd returns sum sum_sq last_price].
    split; [reflexivity|]. split; [right; reflexivity|]. split; [reflexivity|].
    left. repeat split; assumption.
  - assert (Hn : (r =? 0) = false \/ returns self <> []).
    { destruct (r =? 0); [right | left; reflexivity].
      destruct (returns self); [discriminate Hc | discriminate]. }
    destruct (Nat.ltb (window_size self) (length (returns self ++ [r]))) eqn:Hw;
      [destruct (returns self ++ [r]) as [|old rest] eqn:Ers;
        [exfalso; exact (app_cons_not_nil _ _ _ (eq_sym Ers))|] |];
      cbn [fst snd returns sum sum_sq last_price tl hd];
      (split; [apply std_dev_nonneg|]); (split; [apply std_dev_cases|]);
      (split; [reflexivity|]); right; repeat split; assumption.
Qed.

(** C9 fails: on a fresh estimator the first return is 0 (there is no
    previous price) and it is not pushed: the window stays empty. *)
Lemma first_return_not_pushed_counterexample :
  log_return F64.ln_f64 (last_price (new 100)) (Dec.to_f64 (1#2)) = 0 /\
  returns (fst (update F64.ln_f64 (new 100) (1#2))) = [].
Proof. split; reflexivity. Qed.

End VolFacts.

(** ** Properties of the strategy *)

Module StrategyFacts.
Import Strategy Scenarios StrategyRun.

Local Open Scope float_scope.

(** The clip [p.max(0.01).min(0.99)] returns a bound or [p] itself. *)
Lemma clip_cases p :
  F64.min (F64.max p 0.01) 0.99 = 0.01 \/ F64.min (F64.max p 0.01) 0.99 = 0.99 \/
  (F64.min (F64.max p 0.01) 0.99 = p /\ is_nan p = false /\
   (p <? 0.01) = false /\ (0.99 <? p) = false).
Proof.
  unfold F64.min, F64.max.
  destruct (is_nan p) eqn:Hn; [left; reflexivity|].
  change (is_nan 0.01) with false. change (is_nan 0.99) with false. cbv iota.
  destruct (p <? 0.01) eqn:Hlt; [left; reflexivity|].
  rewrite Hn. destruct (0.99 <? p) eqn:Hgt; [right; left; reflexivity|].
  right; right; auto.
Qed.

(** [round_to_tick] returns the value of a finite float between 0.01 and 0.99. *)
Lemma round_to_tick_value price tick :
  let r := F64.min (F64.max (F64.round (price / tick) * tick) 0.01) 0.99 in
  is_finite r = true /\ (0.01 <=? r) = true /\ (r <=? 0.99) = true /\
  round_to_tick price tick = Dec.of_spec_float (Prim2SF r).
Proof.
  intros r.
  assert (H : is_finite r = true /\ (0.01 <=? r) = true /\ (r <=? 0.99) = true).
  { unfold r.
    destruct (clip_cases (F64.round (price / tick) * tick))
      as [-> | [-> | (-> & Hn & Hlt & Hgt)]]; [repeat split; reflexivity ..|].
    set (p := F64.round (price / tick) * tick) in *.
    assert (H1 : (0.01 <=? p) = true)
      by (apply FloatFacts.ltb_false_leb_nn; [exact Hn | reflexivity | exact Hlt]).
    assert (H2 : (p <=? 0.99) = true)
      by (apply FloatFacts.ltb_false_leb_nn; [reflexivity | exact Hn | exact Hgt]).
    repeat split; try assumption.
    rewrite FloatFacts.is_finite_spec. rewrite leb_spec in H1, H2.
    destruct (Prim2SF p) as [s|s| |s m e]; try reflexivity;
      try destruct s; vm_compute in H1, H2; discriminate. }
  destruct H as (F & H1 & H2). repeat split; try assumption.
  unfold round_to_tick, Dec.from_f64_retain. cbv zeta. fold r.
  unfold is_finite in F. destruct (is_nan r || is_infinity r); [discriminate F | reflexivity].
Qed.


(** A NaN price is clipped up to 0.01. *)
Lemma round_to_tick_nan tick : round_to_tick nan tick = Dec.of_spec_float (Prim2SF 0.01).
Proof.
  unfold round_to_tick. rewrite FloatFacts.nan_div_l.
  change (F64.round nan) with nan. rewrite FloatFacts.nan_mul_l.
  vm_compute. reflexivity.
Qed.

(** [calculate_equity_change] and [calculate_quotes] leave the ledger alone. *)
Lemma equity_change_ledger self m :
  current_inventory_shares (fst (calculate_equity_change self m)) = current_inventory_shares self /\
  current_cash_balance (fst (calculate_equity_change self m)) = current_cash_balance self.
Proof.
  unfold calculate_equity_change.
  destruct (_ && _ && _); [split; reflexivity|].
  destruct (last_equity_mark self =? 0); split; reflexivity.
Qed.

Lemma quotes_ledger ln self now mid :
  current_inventory_shares (fst (calculate_quotes ln self now mid)) = current_inventory_shares self /\
  current_cash_balance (fst (calculate_quotes ln self now mid)) = current_cash_balance self.
Proof.
  unfold calculate_quotes. cbv zeta.
  destruct (wrap_i64 _ <=? 0)%Z; [split; reflexivity|].
  destruct (Vol.update ln (vol_calc self) mid); split; reflexivity.
Qed.

Lemma running_sum_app x0 l1 l2 :
  running_sum x0 (l1 ++ l2) = running_sum (running_sum x0 l1) l2.
Proof. unfold running_sum. apply fold_left_app. Qed.

Lemma run_ledger ln st cs :
  current_inventory_shares (run ln st cs) =
    running_sum (current_inventory_shares st) (fill_shares cs) /\
  current_cash_balance (run ln st cs) =
    running_sum (current_cash_balance st) (fill_cash cs).
Proof.
  revert st. induction cs as [|c cs IH]; intros st; [split; reflexivity|].
  unfold run in *. simpl fold_left. rewrite (proj1 (IH _)), (proj2 (IH _)).
  unfold fill_shares, fill_cash. simpl flat_map. rewrite !running_sum_app.
  destruct c as [now_s ch cf|m|now m]; simpl.
  - split; reflexivity.
  - destruct (equity_change_ledger st m) as [-> ->]. split; reflexivity.
  - destruct (quotes_ledger ln st now m) as [-> ->]. split; reflexivity.
Qed.





(** C5: from [restore_state inv0 cash0], after any sequence of fills, equity
    marks and quote computations, the inventory and the cash are the f64
    running sums of [inv0], resp. [cash0], and the fill arguments in call
    order; the other calls do not change them. *)
Theorem ledger_running_sums (ln : float -> float) (self : OpinionGridStrategy)
  (inv0 cash0 : float) (cs : list StrategyCall) :
  current_inventory_shares (run ln (restore_state self inv0 cash0) cs) =
    running_sum inv0 (fill_shares cs) /\
  current_cash_balance (run ln (restore_state self inv0 cash0) cs) =
    running_sum cash0 (fill_cash cs).
Proof. apply run_ledger. Qed.

(** C10: [on_fill] adds its arguments to the inventory and the cash whatever
    the persistence sender (none, live or with its worker gone: the send
    result is discarded), and keeps [cfg], [vol_calc] and
    [last_equity_mark]. *)
Theorem on_fill_frame (self : OpinionGridStrategy) (now_s : Z) (ch cf : float) :
  current_inventory_shares (on_fill self now_s ch cf) = current_inventory_shares self + ch /\
  current_cash_balance (on_fill self now_s ch cf) = current_cash_balance self + cf /\
  cfg (on_fill self now_s ch cf) = cfg self /\
  vol_calc (on_fill self now_s ch cf) = vol_calc self /\
  last_equity_mark (on_fill self now_s ch cf) = last_equity_mark self.
Proof. repeat split. Qed.

(** C6 fails: after [restore_state] with a NaN inventory (what a state
    file holding NaN gives), the reservation price is NaN, yet
    [calculate_quotes] returns a pair of prices, 0.01 and 0.01, not the
    no-quote [(0, 0)]. *)
Lemma nan_inventory_quotes_counterexample :
  snd (calculate_quotes F64.ln_f64 (restore_state (new engine_config None) nan 0)
         thirty_days_before (1#2)) =
  (Dec.of_spec_float (Prim2SF 0.01), Dec.of_spec_float (Prim2SF 0.01)) /\
  snd (calculate_quotes F64.ln_f64 (restore_state (new engine_config None) nan 0)
         thirty_days_before (1#2)) <> (0%Q, 0%Q).
Proof. vm_compute. split; [reflexivity | discriminate]. Qed.

(** C6 (amended): there is no NaN guard. With a NaN inventory and time
    left, the NaN reaches both raw quotes and [round_to_tick] clips it to
    0.01: the pair [(0.01, 0.01)] is returned, whatever the configuration,
    the mid-price and the logarithm. *)
Theorem quotes_nan_inventory (ln : float -> float) (self : OpinionGridStrategy)
  (now : Z) (mid : Q) :
  is_nan (current_inventory_shares self) = true ->
  (0 < wrap_i64 (maturity_timestamp_ms (cfg self) - now))%Z ->
  snd (calculate_quotes ln self now mid) =
  (Dec.of_spec_float (Prim2SF 0.01), Dec.of_spec_float (Prim2SF 0.01)).
Proof.
  intros Hn Ht. apply FloatFacts.is_nan_nan in Hn.
  unfold calculate_quotes. cbv zeta.
  destruct (Z.leb_spec (wrap_i64 (maturity_timestamp_ms (cfg self) - now)) 0) as [Hle|_];
    [lia|].
  destruct (Vol.update ln (vol_calc self) mid) as [vol sigma]. cbn [snd].
  rewrite Hn, !FloatFacts.nan_mul_l, FloatFacts.sub_nan_r, FloatFacts.nan_sub_l,
    FloatFacts.nan_add_l, !round_to_tick_nan.
  reflexivity.
Qed.

Lemma quotes_nan_inventory_witness :
  is_nan (current_inventory_shares (restore_state (new engine_config None) nan 0)) = true /\
  (0 < wrap_i64 (maturity_timestamp_ms (cfg (restore_state (new engine_config None) nan 0))
                 - thirty_days_before))%Z /\
  snd (calculate_quotes F64.ln_f64 (restore_state (new engine_config None) nan 0)
         thirty_days_before (1#2)) =
  (Dec.of_spec_float (Prim2SF 0.01), Dec.of_spec_float (Prim2SF 0.01)).
Proof.
  split; [reflexivity|]. split; [reflexivity|].
  apply quotes_nan_inventory; reflexivity.
Defined.

(** C8 fails: in scenario S1 the raw bid 0.5 - 0.005 is 0.495 in f64,
    0.495 / 0.01 is 49.5 exactly, which rounds half away from zero to 50:
    the bid is 0.50, not 0.49. *)
Lemma s1_bid_counterexample :
  (fst (snd (calculate_quotes F64.ln_f64 (new s1_config None) thirty_days_before (1#2)))
   == 1#2)%Q /\
  ~ (fst (snd (calculate_quotes F64.ln_f64 (new s1_config None) thirty_days_before (1#2)))
     == 49#100)%Q.
Proof. vm_compute. split; [reflexivity | discriminate]. Qed.

(** C8 (amended): in scenario S1, for any logarithm that keeps the
    liquidity term of the half-spread below the 0.005 floor (the true
    value is about 0.0004), the quotes are bid = 0.50 and ask = the f64
    nearest 0.51. *)
Theorem s1_quotes (ln : float -> float) :
  (0 + 2 / 0.005 * ln (1 + 0.005 / 5000) <? 0.005) = true ->
  (fst (snd (calculate_quotes ln (new s1_config None) thirty_days_before (1#2))) == 1#2)%Q /\
  snd (snd (calculate_quotes ln (new s1_config None) thirty_days_before (1#2))) =
  Dec.of_spec_float (Prim2SF 0.51).
Proof.
  intros Hl. vm_compute in Hl.
  pose proof (FloatFacts.ltb_eqb_refl _ _ Hl) as He.
  vm_compute. rewrite ?He, ?Hl. vm_compute. split; reflexivity.
Qed.

Lemma s1_quotes_witness :
  (0 + 2 / 0.005 * F64.ln_f64 (1 + 0.005 / 5000) <? 0.005) = true /\
  (fst (snd (calculate_quotes F64.ln_f64 (new s1_config None) thirty_days_before (1#2)))
   == 1#2)%Q /\
  snd (snd (calculate_quotes F64.ln_f64 (new s1_config None) thirty_days_before (1#2))) =
  Dec.of_spec_float (Prim2SF 0.51).
Proof.
  split; [vm_compute; reflexivity|].
  apply s1_quotes. vm_compute. reflexivity.
Defined.

End StrategyFacts.

(** ** Properties of the engine loop *)

Module EngineFacts.
Import Engine Scenarios.

(** What an accepting [check_signal] guarantees. *)
Lemma check_signal_true (rm : Risk.RiskManager) (s : TradeSignal) :
  Risk.check_signal rm s = true ->
  (Risk.max_order_size_usd rm <? Dec.to_f64 (size_usd s))%float = false /\
  (side s = Buy -> (price s <= Risk.stop_loss_price_ceiling rm)%Q) /\
  (side s = Sell -> (Risk.stop_loss_price_floor rm <= price s)%Q).
Proof.
  unfold Risk.check_signal, Dec.gtb, Dec.ltb.
  destruct (Risk.is_kill_switch_active rm); [discriminate|].
  destruct (Risk.max_order_size_usd rm <? _)%float; [discriminate|].
  destruct (side s); simpl.
  - destruct (Qle_bool (price s) _) eqn:H; simpl; [|discriminate].
    intros _. split; [reflexivity|]. split; [intros _; apply Qle_bool_iff; exact H|].
    intros E; discriminate E.
  - destruct (Qle_bool _ (price s)) eqn:H; simpl; [|discriminate].
    intros _. split; [reflexivity|]. split; [intros E; discriminate E|].
    intros _; apply Qle_bool_iff; exact H.
Qed.

(** [update_pnl_and_check_kill] keeps the limits. *)
Lemma update_pnl_limits (rm : Risk.RiskManager) (d : float) :
  Risk.max_order_size_usd (fst (Risk.update_pnl_and_check_kill rm d)) = Risk.max_order_size_usd rm /\
  Risk.stop_loss_price_floor (fst (Risk.update_pnl_and_check_kill rm d)) = Risk.stop_loss_price_floor rm /\
  Risk.stop_loss_price_ceiling (fst (Risk.update_pnl_and_check_kill rm d)) = Risk.stop_loss_price_ceiling rm.
Proof.
  unfold Risk.update_pnl_and_check_kill.
  destruct (Risk.is_kill_switch_active rm); [repeat split|].
  destruct (Risk.peak_equity_pnl rm <? _)%float;
    destruct (Risk.max_drawdown_usd rm <? _)%float; repeat split.
Qed.

(** C3 fails: with the engine's strategy configuration, a book of 0.005 /
    0.015 (mid 0.01) and a risk manager with floor 0.02 and ceiling 0.98,
    both quotes are 0.01; the Sell is refused, but the Buy at 0.01, below
    the floor, is published. *)
Lemma buy_below_floor_counterexample :
  match published (on_market_data F64.ln_f64 (Strategy.new engine_config None)
                     (Risk.new 100 500 (2#100) (98#100)) 7 [(1#200, 100#1)] [(3#200, 100#1)]
                     thirty_days_before 0) with
  | [s] => side s = Buy /\ logic_tag s = 1 /\ (price s < 2#100)%Q
  | _ => False
  end.
Proof. vm_compute. repeat split; reflexivity. Qed.

(** C3 (amended): every published signal of tag 1 passed [check_signal]:
    its size is not above [max_order_size_usd], a Buy is at most the
    ceiling and a Sell at least the floor. A Buy below the floor or a Sell
    above the ceiling is not refused. *)
Theorem published_quotes_checked (ln : float -> float)
  (strategy : Strategy.OpinionGridStrategy) (rm : Risk.RiskManager)
  (symbol : Z) (bids asks : list (Q * Q)) (now_ms now_ns : Z) (s : TradeSignal) :
  In s (published (on_market_data ln strategy rm symbol bids asks now_ms now_ns)) ->
  logic_tag s = 1 ->
  (Risk.max_order_size_usd rm <? Dec.to_f64 (size_usd s))%float = false /\
  (side s = Buy -> (price s <= Risk.stop_loss_price_ceiling rm)%Q) /\
  (side s = Sell -> (Risk.stop_loss_price_floor rm <= price s)%Q).
Proof.
  intros Hin Htag. unfold on_market_data in Hin. cbv zeta in Hin.
  destruct (_ || _); [contradiction Hin|].
  destruct (Strategy.calculate_equity_change strategy _) as [st pnl].
  pose proof (update_pnl_limits rm pnl) as (E1 & E2 & E3).
  destruct (Risk.update_pnl_and_check_kill rm pnl) as [rm' fired]. cbn [fst] in E1, E2, E3.
  destruct fired.
  - destruct Hin as [<-|[]]. discriminate Htag.
  - destruct (Strategy.calculate_quotes ln st now_ms _) as [st' [b a]].
    cbn [published] in Hin. apply filter_In in Hin as [_ Hc].
    rewrite <- E1, <- E2, <- E3. apply check_signal_true. exact Hc.
Qed.

Lemma published_quotes_checked_witness :
  let t := on_market_data F64.ln_f64 (Strategy.new engine_config None)
             (Risk.new 100 500 (2#100) (98#100)) 7 [(1#200, 100#1)] [(3#200, 100#1)]
             thirty_days_before 0 in
  let s := {| strategy_id := 1; target_exchange := OpinionLabs; symbol_id := 7;
              side := Buy; price := Dec.of_spec_float (Prim2SF 0.01%float);
              size_usd := 50; logic_tag := 1; created_at_ns := 0 |} in
  In s (published t) /\ logic_tag s = 1 /\
  (Risk.max_order_size_usd (Risk.new 100 500 (2#100) (98#100)) <? Dec.to_f64 (size_usd s))%float
    = false /\
  (side s = Buy -> (price s <= Risk.stop_loss_price_ceiling (Risk.new 100 500 (2#100) (98#100)))%Q) /\
  (side s = Sell -> (Risk.stop_loss_price_floor (Risk.new 100 500 (2#100) (98#100)) <= price s)%Q).
Proof.
  intros t s.
  assert (Hin : In s (published t)) by (vm_compute; left; reflexivity).
  split; [exact Hin|]. split; [reflexivity|].
  exact (published_quotes_checked _ _ _ _ _ _ _ _ s Hin eq_refl).
Defined.

End EngineFacts.

(** ** Properties of the execution pipeline *)

Module ExecFacts.
Import Exec.

(** C7: the signing task does not drop an order when the pipeline is full:
    with the broadcaster alive and [capacity] orders buffered,
    [tx_inner.send(signed).await] waits for a free slot, and the drop
    branch ([Err], "Pipeline full! Dropping order") is not taken. *)
Theorem signer_waits_when_full (ch : BoundedChannel) (signed : SignedOrder) :
  capacity ch = pipeline_capacity ->
  receiver_open ch = true ->
  (capacity ch <= length (buffer ch))%nat ->
  signer_after_signing ch signed = Waiting.
Proof.
  intros _ Ho Hf. unfold signer_after_signing, send_await.
  rewrite Ho. cbn [negb].
  replace (Nat.ltb (length (buffer ch)) (capacity ch)) with false; [reflexivity|].
  symmetry. apply Nat.ltb_ge. exact Hf.
Qed.

Lemma signer_waits_when_full_witness :
  let ch := {| capacity := pipeline_capacity;
               buffer := repeat {| order_id_tag := 0 |} pipeline_capacity;
               receiver_open := true |} in
  capacity ch = pipeline_capacity /\ receiver_open ch = true /\
  (capacity ch <= length (buffer ch))%nat /\
  signer_after_signing ch {| order_id_tag := 1 |} = Waiting.
Proof.
  intros ch.
  assert (H : (capacity ch <= length (buffer ch))%nat)
    by (unfold ch; cbn [capacity buffer]; rewrite repeat_length; apply le_n).
  split; [reflexivity|]. split; [reflexivity|]. split; [exact H|].
  apply signer_waits_when_full; [reflexivity | reflexivity | exact H].
Defined.

End ExecFacts.

(** ** Properties of the risk manager *)

Module RiskFacts.
Import Risk.

(** From a latched state every call is answered [false] and changes nothing. *)
Lemma run_from_killed (rm : RiskManager) (cs : list RiskCall) :
  is_kill_switch_active rm = true -> run rm cs = (rm, repeat false (length cs)).
Proof.
  intros Hk. induction cs as [|c cs IH]; [reflexivity|].
  simpl. destruct c as [d|s]; simpl.
  - unfold update_pnl_and_check_kill. rewrite Hk, IH. reflexivity.
  - unfold check_signal. rewrite Hk, IH. reflexivity.
Qed.

Lemma run_app (rm : RiskManager) (cs1 cs2 : list RiskCall) :
  run rm (cs1 ++ cs2) =
  (fst (run (fst (run rm cs1)) cs2), snd (run rm cs1) ++ snd (run (fst (run rm cs1)) cs2)).
Proof.
  revert rm. induction cs1 as [|c cs1 IH]; intros rm; simpl.
  - destruct (run rm cs2); reflexivity.
  - destruct (step rm c) as [rm' r]. rewrite IH.
    destruct (run rm' cs1) as [rm'' rs]. reflexivity.
Qed.

Lemma new_drawdown_inv max_drawdown max_order floor ceiling :
  drawdown_inv (new max_drawdown max_order floor ceiling).
Proof. repeat split; vm_compute; reflexivity. Qed.

(** One call keeps the bookkeeping when the new total is finite, and the
    peak does not decrease. *)
Lemma update_drawdown_inv (rm : RiskManager) (d : float) :
  drawdown_inv rm ->
  is_finite (total_pnl (fst (update_pnl_and_check_kill rm d))) = true ->
  drawdown_inv (fst (update_pnl_and_check_kill rm d)) /\
  PrimFloat.leb (peak_equity_pnl rm)
    (peak_equity_pnl (fst (update_pnl_and_check_kill rm d))) = true.
Proof.
  intros (Fp & Ft & Hle & Hdd & Hnn) Fn.
  unfold update_pnl_and_check_kill in *.
  destruct (is_kill_switch_active rm).
  { split; [repeat split; assumption|]. apply FloatFacts.leb_refl; assumption. }
  set (total := (total_pnl rm + d)%float) in *.
  destruct (PrimFloat.ltb (peak_equity_pnl rm) total) eqn:Hlt.
  - assert (Ft' : is_finite total = true)
      by (destruct (PrimFloat.ltb (max_drawdown_usd rm) 0); exact Fn).
    assert (Hi : drawdown_inv (with_pnl rm total total 0 false)).
    { unfold drawdown_inv; simpl. repeat split; try assumption.
      - apply FloatFacts.leb_refl; assumption.
      - rewrite FloatFacts.sub_self by assumption. reflexivity. }
    destruct (PrimFloat.ltb (max_drawdown_usd rm) 0); simpl;
      (split; [exact Hi | apply FloatFacts.ltb_leb; exact Hlt]).
  - set (dd := (peak_equity_pnl rm - total)%float) in *.
    assert (Ft' : is_finite total = true)
      by (destruct (PrimFloat.ltb (max_drawdown_usd rm) dd); exact Fn).
    assert (Hi : forall k, drawdown_inv (with_pnl rm total (peak_equity_pnl rm) dd k)).
    { intros k. unfold drawdown_inv; simpl. repeat split; try assumption.
      - apply FloatFacts.ltb_false_leb; assumption.
      - apply FloatFacts.sub_nonneg; try assumption.
        apply FloatFacts.ltb_false_leb; assumption. }
    assert (Hp : PrimFloat.leb (peak_equity_pnl rm) (peak_equity_pnl rm) = true)
      by (apply FloatFacts.leb_refl; assumption).
    destruct (PrimFloat.ltb (max_drawdown_usd rm) dd); simpl; split; auto.
Qed.

Lemma pnl_states_inv (rm : RiskManager) (ds : list float) :
  drawdown_inv rm ->
  Forall (fun r => is_finite (total_pnl r) = true) (pnl_states rm ds) ->
  Forall drawdown_inv (pnl_states rm ds) /\
  Sorted (fun a b => PrimFloat.leb (peak_equity_pnl a) (peak_equity_pnl b) = true)
         (pnl_states rm ds).
Proof.
  revert rm. induction ds as [|d ds IH]; intros rm Hi Hf; simpl in *.
  - split; [constructor; [exact Hi | constructor] | repeat constructor].
  - inversion Hf as [|? ? _ Hf']; subst.
    assert (Hd : is_finite (total_pnl (fst (update_pnl_and_check_kill rm d))) = true).
    { destruct ds; inversion Hf'; assumption. }
    destruct (update_drawdown_inv rm d Hi Hd) as [Hi' Hp].
    destruct (IH _ Hi' Hf') as [H1 H2].
    split; [constructor; assumption|].
    constructor; [exact H2|].
    destruct ds; simpl; constructor; exact Hp.
Qed.

(** C2: once [is_kill_switch_active] is true after a run [cs1], the rest
    [cs2] of the run answers every call, [check_signal] and
    [update_pnl_and_check_kill] alike, with [false] and leaves the whole
    state (the switch and [total_pnl] included) unchanged. *)
Theorem kill_switch_latched (rm : RiskManager) (cs1 cs2 : list RiskCall) :
  is_kill_switch_active (fst (run rm cs1)) = true ->
  run rm (cs1 ++ cs2) =
  (fst (run rm cs1), snd (run rm cs1) ++ repeat false (length cs2)).
Proof. intros Hk. rewrite run_app, (run_from_killed _ cs2 Hk). reflexivity. Qed.

(** The S4 scenario: limit 15, deltas +5, +5, +5, -20 trip the switch;
    a later loss and a Buy signal are both refused. *)
Lemma kill_switch_latched_witness :
  let rm := new 15 500 (2#100) (98#100) in
  let cs1 := map UpdatePnl [5; 5; 5; -20]%float in
  let cs2 := [UpdatePnl (-10)%float;
              CheckSignal {| strategy_id := 1; target_exchange := OpinionLabs;
                             symbol_id := 7; side := Buy; price := 1#2;
                             size_usd := 50; logic_tag := 1; created_at_ns := 0 |}] in
  is_kill_switch_active (fst (run rm cs1)) = true /\
  run rm (cs1 ++ cs2) =
  (fst (run rm cs1), snd (run rm cs1) ++ repeat false (length cs2)).
Proof.
  intros rm cs1 cs2. split.
  - vm_compute. reflexivity.
  - apply kill_switch_latched. vm_compute. reflexivity.
Defined.

(** C4 fails for finite deltas: [1e308 + 1e308] overflows to [+inf], the
    peak follows it, and the next call sets [current_drawdown] to
    [inf - inf], a NaN, which is not [>= 0]. *)
Lemma drawdown_overflow_counterexample :
  let r := fst (run (new 100 500 (2#100) (98#100))
                    (map UpdatePnl [1e308; 1e308; -1]%float)) in
  is_finite 1e308%float = true /\ is_finite (-1)%float = true /\
  PrimFloat.leb 0 (current_drawdown r) = false.
Proof. vm_compute. repeat split. Qed.

(** C4 (amended): from a fresh risk manager, as long as [total_pnl] stays
    finite, every state reached by [update_pnl_and_check_kill] has
    [total_pnl <= peak_equity_pnl] and
    [current_drawdown = peak_equity_pnl - total_pnl >= 0] (f64
    arithmetic), and [peak_equity_pnl] never decreases from one call to
    the next. *)
Theorem drawdown_bookkeeping_finite (max_drawdown max_order : float)
  (floor ceiling : Q) (ds : list float) :
  Forall (fun r => is_finite (total_pnl r) = true)
    (pnl_states (new max_drawdown max_order floor ceiling) ds) ->
  Forall drawdown_inv (pnl_states (new max_drawdown max_order floor ceiling) ds) /\
  Sorted (fun a b => PrimFloat.leb (peak_equity_pnl a) (peak_equity_pnl b) = true)
    (pnl_states (new max_drawdown max_order floor ceiling) ds).
Proof. intros Hf. apply pnl_states_inv; [apply new_drawdown_inv | exact Hf]. Qed.

Lemma drawdown_bookkeeping_finite_witness :
  let st := pnl_states (new 15 500 (2#100) (98#100)) [5; 5; 5; -20; -10]%float in
  Forall (fun r => is_finite (total_pnl r) = true) st /\
  (Forall drawdown_inv st /\
   Sorted (fun a b => PrimFloat.leb (peak_equity_pnl a) (peak_equity_pnl b) = true) st).
Proof.
  intros st.
  assert (Hf : Forall (fun r => is_finite (total_pnl r) = true) st).
  { repeat (apply Forall_cons; [vm_compute; reflexivity|]). apply Forall_nil. }
  split; [exact Hf|]. apply drawdown_bookkeeping_finite. exact Hf.
Defined.

End RiskFacts.


Module VolRunFacts.
Import Vol VolRun.

Local Open Scope float_scope.

Lemma update_returns_length ln self p :
  (length (returns self) <= window_size self)%nat ->
  (length (returns (fst (update ln self p))) <= window_size self)%nat /\
  window_size (fst (update ln self p)) = window_size self.
Proof.
  intros H. unfold update. cbv zeta.
  set (r := log_return ln (last_price self) (Dec.to_f64 p)).
  destruct (_ && _); [simpl; split; [exact H | reflexivity]|].
  assert (Hl : length (returns self ++ [r]) = S (length (returns self)))
    by (rewrite length_app; simpl; lia).
  destruct (Nat.ltb (window_size self) (length (returns self ++ [r]))) eqn:Hw.
  - apply Nat.ltb_lt in Hw.
    destruct (returns self ++ [r]) as [|old rest] eqn:E; simpl in Hl |- *; [lia|].
    split; [lia | reflexivity].
  - apply Nat.ltb_ge in Hw. simpl. split; [lia | reflexivity].
Qed.

Lemma update_sigma_small ln self p :
  (length (returns (fst (update ln self p))) < 2)%nat -> snd (update ln self p) = 0.
Proof.
  unfold update. cbv zeta.
  destruct (_ && _); [reflexivity|].
  destruct (Nat.ltb _ _);
    [destruct (returns self ++ _) as [|old rest]|]; cbn [fst snd returns];
    intros H; apply VolFacts.std_dev_small; exact H.
Qed.

Lemma update_last_price ln self p :
  last_price (fst (update ln self p)) = Some (Dec.to_f64 p).
Proof.
  unfold update. cbv zeta. destruct (_ && _); [reflexivity|].
  destruct (Nat.ltb _ _); [destruct (returns self ++ _)|]; reflexivity.
Qed.

Lemma feed_window ln self ps :
  (length (returns self) <= window_size self)%nat ->
  (length (returns (fst (feed ln self ps))) <= window_size self)%nat /\
  ((2 <= window_size self)%nat \/ Forall (fun sigma => sigma = 0) (snd (feed ln self ps))).
Proof.
  revert self. induction ps as [|p ps IH]; intros self H; simpl.
  - split; [exact H|]. destruct (Nat.le_gt_cases 2 (window_size self)); [left; assumption|].
    right; constructor.
  - pose proof (update_returns_length ln self p H) as [H1 H2].
    pose proof (update_sigma_small ln self p) as Hs.
    destruct (update ln self p) as [self' sigma]. simpl in H1, H2, Hs.
    rewrite <- H2 in H1. destruct (IH self' H1) as [IH1 IH2].
    destruct (feed ln self' ps) as [self'' sigmas]. simpl in IH1, IH2 |- *.
    rewrite H2 in IH1, IH2. split; [exact IH1|].
    destruct IH2 as [IH2|IH2]; [left; exact IH2|].
    destruct (Nat.le_gt_cases 2 (window_size self)) as [Hw|Hw]; [left; exact Hw|].
    right. constructor; [apply Hs; lia | exact IH2].
Qed.

(** X1: from [RollingVolatility::new(n)], whatever the prices fed to
    [update], the window never holds more than [n] returns; with [n <= 1]
    every sigma returned is 0. *)
Theorem feed_window_bounded (ln : float -> float) (n : nat) (ps : list Q) :
  (length (returns (fst (feed ln (new n) ps))) <= n)%nat /\
  ((2 <= n)%nat \/ Forall (fun sigma => sigma = 0) (snd (feed ln (new n) ps))).
Proof. apply (feed_window ln (new n) ps). simpl. lia. Qed.

(** X2: a price that is not above zero (or NaN) gives a zero log return,
    and so does the next price, whatever it is: the bad price is kept as
    [last_price]. *)
Theorem nonpositive_price_zero_returns (ln : float -> float) (self : RollingVolatility)
  (p q : Q) :
  PrimFloat.ltb 0 (Dec.to_f64 p) = false ->
  log_return ln (last_price self) (Dec.to_f64 p) = 0 /\
  log_return ln (last_price (fst (update ln self p))) (Dec.to_f64 q) = 0.
Proof.
  intros H. rewrite update_last_price. unfold log_return. rewrite H. split.
  - destruct (last_price self); [rewrite andb_false_r|]; reflexivity.
  - reflexivity.
Qed.

Lemma nonpositive_price_zero_returns_witness :
  PrimFloat.ltb 0 (Dec.to_f64 0) = false /\
  log_return F64.ln_f64 (last_price (new 100)) (Dec.to_f64 0) = 0 /\
  log_return F64.ln_f64 (last_price (fst (update F64.ln_f64 (new 100) 0))) (Dec.to_f64 (1#2)) = 0.
Proof.
  split; [vm_compute; reflexivity|].
  apply nonpositive_price_zero_returns. vm_compute. reflexivity.
Defined.

End VolRunFacts.


Module RiskRunFacts.
Import Risk RiskRun.

(** A call answers [true] exactly when it turns the switch on. *)
Lemma update_true_turns_on rm d :
  snd (update_pnl_and_check_kill rm d) = true ->
  is_kill_switch_active rm = false /\
  is_kill_switch_active (fst (update_pnl_and_check_kill rm d)) = true.
Proof.
  unfold update_pnl_and_check_kill.
  destruct (is_kill_switch_active rm); [discriminate|].
  destruct (PrimFloat.ltb _ _); destruct (PrimFloat.ltb (max_drawdown_usd rm) _);
    simpl; intros H; try discriminate; split; reflexivity.
Qed.

Lemma update_false_keeps rm d :
  snd (update_pnl_and_check_kill rm d) = false ->
  is_kill_switch_active (fst (update_pnl_and_check_kill rm d)) = is_kill_switch_active rm.
Proof.
  unfold update_pnl_and_check_kill.
  destruct (is_kill_switch_active rm) eqn:Hk; [intros _; exact Hk|].
  destruct (PrimFloat.ltb _ _); destruct (PrimFloat.ltb (max_drawdown_usd rm) _);
    simpl; intros H; try discriminate; reflexivity.
Qed.

Lemma alarms_bound rm cs :
  (RiskRun.alarms cs (snd (run rm cs)) <= if is_kill_switch_active rm then 0 else 1)%nat.
Proof.
  revert rm. induction cs as [|c cs IH]; intros rm; simpl.
  - destruct (is_kill_switch_active rm); lia.
  - destruct (step rm c) as [rm' r] eqn:Hs. specialize (IH rm').
    destruct (run rm' cs) as [rm'' rs]. simpl in IH |- *.
    destruct c as [d|s]; simpl in Hs.
    + destruct r.
      * pose proof (update_true_turns_on rm d) as Hu. rewrite Hs in Hu.
        destruct (Hu eq_refl) as [H1 H2]. simpl in H2. rewrite H2 in IH. rewrite H1. lia.
      * pose proof (update_false_keeps rm d) as Hu. rewrite Hs in Hu.
        specialize (Hu eq_refl). simpl in Hu. rewrite Hu in IH. exact IH.
    + injection Hs as <- <-. simpl. exact IH.
Qed.

(** X3: over any run of calls on a risk manager, at most one
    [update_pnl_and_check_kill] call returns [true] (the alarm that
    triggers the emergency cancel), and none does when the switch was
    already on at the start. *)
Theorem at_most_one_alarm (rm : RiskManager) (cs : list RiskCall) :
  (RiskRun.alarms cs (snd (run rm cs)) <= if is_kill_switch_active rm then 0 else 1)%nat.
Proof. apply alarms_bound. Qed.

Lemma nan_ltb x : PrimFloat.ltb nan x = false.
Proof. rewrite ltb_spec, FloatFacts.Prim2SF_nan. reflexivity. Qed.

Lemma update_nan_limit rm d :
  is_nan (max_drawdown_usd rm) = true -> is_kill_switch_active rm = false ->
  snd (update_pnl_and_check_kill rm d) = false /\
  is_kill_switch_active (fst (update_pnl_and_check_kill rm d)) = false /\
  max_drawdown_usd (fst (update_pnl_and_check_kill rm d)) = max_drawdown_usd rm.
Proof.
  intros Hn Hk. apply FloatFacts.is_nan_nan in Hn.
  unfold update_pnl_and_check_kill. rewrite Hk, Hn.
  destruct (PrimFloat.ltb _ _); rewrite nan_ltb; simpl; auto.
Qed.

Lemma run_nan_limit rm cs :
  is_nan (max_drawdown_usd rm) = true -> is_kill_switch_active rm = false ->
  is_kill_switch_active (fst (run rm cs)) = false /\ RiskRun.alarms cs (snd (run rm cs)) = 0%nat.
Proof.
  revert rm. induction cs as [|c cs IH]; intros rm Hn Hk; simpl; [split; [exact Hk | reflexivity]|].
  destruct (step rm c) as [rm' r] eqn:Hs.
  assert (H' : is_nan (max_drawdown_usd rm') = true /\ is_kill_switch_active rm' = false /\ r = false
               \/ (rm' = rm /\ exists s, c = CheckSignal s)).
  { destruct c as [d|s]; simpl in Hs.
    - left. destruct (update_nan_limit rm d Hn Hk) as (H1 & H2 & H3).
      rewrite Hs in H1, H2, H3. simpl in *. rewrite H3. auto.
    - right. injection Hs as <- _. eauto. }
  destruct H' as [(Hn' & Hk' & ->) | (-> & s & ->)].
  - destruct (IH rm' Hn' Hk') as [I1 I2]. destruct (run rm' cs) as [rm'' rs].
    simpl in *. destruct c; split; assumption.
  - destruct (IH rm Hn Hk) as [I1 I2]. destruct (run rm cs) as [rm'' rs].
    simpl in *. destruct r; split; assumption.
Qed.

(** X4: a risk manager whose [max_drawdown_usd] is NaN never fires: every
    comparison with NaN is false, so whatever the calls, the switch stays
    off and no [update_pnl_and_check_kill] call returns [true]. *)
Theorem nan_limit_never_fires (rm : RiskManager) (cs : list RiskCall) :
  is_nan (max_drawdown_usd rm) = true -> is_kill_switch_active rm = false ->
  is_kill_switch_active (fst (run rm cs)) = false /\
  RiskRun.alarms cs (snd (run rm cs)) = 0%nat.
Proof. apply run_nan_limit. Qed.

Lemma nan_limit_never_fires_witness :
  let rm := new nan 500 (2#100) (98#100) in
  let cs := map UpdatePnl [5; -1000; -1e300]%float in
  is_nan (max_drawdown_usd rm) = true /\ is_kill_switch_active rm = false /\
  is_kill_switch_active (fst (run rm cs)) = false /\
  RiskRun.alarms cs (snd (run rm cs)) = 0%nat.
Proof.
  intros rm cs. split; [reflexivity|]. split; [reflexivity|].
  apply nan_limit_never_fires; reflexivity.
Defined.

End RiskRunFacts.

Module StrategyMoreFacts.
Import Strategy Scenarios.

Local Open Scope float_scope.

(** X5: [calculate_equity_change] reports 0 whenever the stored mark is
    exactly 0.0 (the first branch adds nothing to the second), and
    otherwise the new equity [cash + inventory * mid] minus the mark; in
    both cases the mark becomes the new equity and nothing else changes. *)
Theorem equity_change_spec (self : OpinionGridStrategy) (m : float) :
  let equity := current_cash_balance self + current_inventory_shares self * m in
  snd (calculate_equity_change self m) =
    (if last_equity_mark self =? 0 then 0 else equity - last_equity_mark self) /\
  last_equity_mark (fst (calculate_equity_change self m)) = equity /\
  current_inventory_shares (fst (calculate_equity_change self m)) = current_inventory_shares self /\
  current_cash_balance (fst (calculate_equity_change self m)) = current_cash_balance self /\
  cfg (fst (calculate_equity_change self m)) = cfg self /\
  vol_calc (fst (calculate_equity_change self m)) = vol_calc self /\
  persist_sender (fst (calculate_equity_change self m)) = persist_sender self.
Proof.
  intros equity. unfold calculate_equity_change.
  destruct (last_equity_mark self =? 0) eqn:Hm; cbn [andb];
    [destruct (_ && _)|]; repeat split.
Qed.

(** X6: [calculate_quotes] changes the strategy only through its
    volatility estimator: after maturity it returns before feeding the
    estimator, so the state is unchanged; before maturity the estimator
    takes one [update] with the mid-price and every other field is kept. *)
Theorem quotes_state_effect (ln : float -> float) (self : OpinionGridStrategy)
  (now : Z) (mid : Q) :
  ((wrap_i64 (maturity_timestamp_ms (cfg self) - now) <= 0)%Z /\
   fst (calculate_quotes ln self now mid) = self) \/
  ((0 < wrap_i64 (maturity_timestamp_ms (cfg self) - now))%Z /\
   vol_calc (fst (calculate_quotes ln self now mid)) = fst (Vol.update ln (vol_calc self) mid) /\
   cfg (fst (calculate_quotes ln self now mid)) = cfg self /\
   current_inventory_shares (fst (calculate_quotes ln self now mid)) = current_inventory_shares self /\
   current_cash_balance (fst (calculate_quotes ln self now mid)) = current_cash_balance self /\
   last_equity_mark (fst (calculate_quotes ln self now mid)) = last_equity_mark self /\
   persist_sender (fst (calculate_quotes ln self now mid)) = persist_sender self).
Proof.
  unfold calculate_quotes. cbv zeta.
  destruct (Z.leb_spec (wrap_i64 (maturity_timestamp_ms (cfg self) - now)) 0) as [Hle|Hgt].
  - left. split; [exact Hle | reflexivity].
  - right. split; [exact Hgt|].
    destruct (Vol.update ln (vol_calc self) mid) as [vol sigma]. repeat split.
Qed.

(** X7: the fallback [dec!(0.5)] of [round_to_tick] is never used: the
    clipped price is always finite, so [Decimal::from_f64_retain] succeeds
    and [round_to_tick] returns its value. *)
Theorem round_to_tick_retained (price tick : float) :
  Dec.from_f64_retain (F64.min (F64.max (F64.round (price / tick) * tick) 0.01) 0.99) =
  Some (round_to_tick price tick).
Proof.
  destruct (StrategyFacts.round_to_tick_value price tick) as (F & _ & _ & ->).
  unfold Dec.from_f64_retain. unfold is_finite in F.
  destruct (is_nan _ || is_infinity _); [discriminate F | reflexivity].
Qed.

Lemma round_special_nan y :
  (Prim2SF y = S754_nan \/ exists s, Prim2SF y = S754_infinity s) -> F64.round y = y.
Proof.
  intros H. unfold F64.round.
  replace (is_nan y || is_infinity y) with true; [reflexivity|].
  destruct H as [H | [s H]].
  - rewrite FloatFacts.is_nan_spec, H. reflexivity.
  - unfold is_infinity. rewrite eqb_spec, abs_spec, H, FloatFacts.Prim2SF_infinity.
    rewrite orb_true_r. reflexivity.
Qed.

Lemma degenerate_tick_nan x tick :
  (tick = 0 \/ is_nan tick = true) -> F64.round (x / tick) * tick = nan.
Proof.
  intros Ht.
  assert (Hd : Prim2SF (x / tick) = S754_nan \/ exists s, Prim2SF (x / tick) = S754_infinity s).
  { rewrite div_spec. destruct Ht as [-> | Hn].
    - rewrite FloatFacts.Prim2SF_zero.
      destruct (Prim2SF x) as [s|s| |s m e]; simpl; eauto.
    - apply FloatFacts.is_nan_nan in Hn. subst tick. rewrite FloatFacts.Prim2SF_nan.
      destruct (Prim2SF x) as [[]|[]| |[] m e]; simpl; auto. }
  rewrite (round_special_nan _ Hd).
  apply Prim2SF_inj. rewrite mul_spec, FloatFacts.Prim2SF_nan.
  destruct Ht as [-> | Hn].
  - rewrite FloatFacts.Prim2SF_zero.
    destruct Hd as [-> | [s ->]]; reflexivity.
  - apply FloatFacts.is_nan_nan in Hn. subst tick. rewrite FloatFacts.Prim2SF_nan.
    destruct Hd as [-> | [s ->]]; reflexivity.
Qed.

Lemma round_to_tick_degenerate x tick :
  (tick = 0 \/ is_nan tick = true) -> round_to_tick x tick = Dec.of_spec_float (Prim2SF 0.01).
Proof.
  intros Ht. unfold round_to_tick. cbv zeta. rewrite (degenerate_tick_nan x tick Ht).
  vm_compute. reflexivity.
Qed.

(** X8: with a [tick_size] of 0 or NaN, every quote computed before
    maturity is (0.01, 0.01): [price / tick] is infinite or NaN, [round]
    keeps it, the product with the tick is NaN, and the clip sends NaN to
    0.01. *)
Theorem quotes_degenerate_tick (ln : float -> float) (self : OpinionGridStrategy)
  (now : Z) (mid : Q) :
  (tick_size (cfg self) = 0 \/ is_nan (tick_size (cfg self)) = true) ->
  (0 < wrap_i64 (maturity_timestamp_ms (cfg self) - now))%Z ->
  snd (calculate_quotes ln self now mid) =
  (Dec.of_spec_float (Prim2SF 0.01), Dec.of_spec_float (Prim2SF 0.01)).
Proof.
  intros Ht Hm. unfold calculate_quotes. cbv zeta.
  destruct (Z.leb_spec (wrap_i64 (maturity_timestamp_ms (cfg self) - now)) 0) as [Hle|_];
    [lia|].
  destruct (Vol.update ln (vol_calc self) mid) as [vol sigma]. cbn [snd].
  rewrite !round_to_tick_degenerate by exact Ht. reflexivity.
Qed.

Lemma quotes_degenerate_tick_witness :
  let c := {| risk_aversion_gamma := 0.05; liquidity_k := 5000; min_spread_bps := 50;
              tick_size := 0; max_inventory_usd := 2000;
              maturity_timestamp_ms := 1735689599000; terminal_dumping_factor := 10;
              closing_window_seconds := 3600 |} in
  (tick_size (cfg (new c None)) = 0 \/ is_nan (tick_size (cfg (new c None))) = true) /\
  (0 < wrap_i64 (maturity_timestamp_ms (cfg (new c None)) - thirty_days_before))%Z /\
  snd (calculate_quotes F64.ln_f64 (new c None) thirty_days_before (1#2)) =
  (Dec.of_spec_float (Prim2SF 0.01), Dec.of_spec_float (Prim2SF 0.01)).
Proof.
  intros c.
  assert (Ht : tick_size (cfg (new c None)) = 0 \/ is_nan (tick_size (cfg (new c None))) = true)
    by (left; reflexivity).
  split; [exact Ht|]. split; [vm_compute; reflexivity|].
  apply quotes_degenerate_tick; [exact Ht | vm_compute; reflexivity].
Defined.

End StrategyMoreFacts.


Module PersistFacts.
Import Strategy StrategyRun Persist Scenarios.

Lemma equity_change_sender self m :
  persist_sender (fst (calculate_equity_change self m)) = persist_sender self.
Proof.
  unfold calculate_equity_change.
  destruct (_ && _ && _)%float; [reflexivity|].
  destruct (last_equity_mark self =? 0)%float; reflexivity.
Qed.

Lemma quotes_sender ln self now mid :
  persist_sender (fst (calculate_quotes ln self now mid)) = persist_sender self.
Proof.
  unfold calculate_quotes. cbv zeta.
  destruct (wrap_i64 _ <=? 0)%Z; [reflexivity|].
  destruct (Vol.update ln (vol_calc self) mid); reflexivity.
Qed.

Lemma last_last {A} (l : list A) x d : last (l ++ [x]) d = x.
Proof.
  induction l as [|a l IH]; [reflexivity|].
  simpl. rewrite IH. destruct (l ++ [x]) eqn:E; [destruct l; discriminate|reflexivity].
Qed.

Lemma last_cons {A} (l : list A) x d : last (x :: l) d = last l x.
Proof.
  revert x d. induction l as [|a l IH]; intros x d; [reflexivity|].
  change (last (a :: l) d = last (a :: l) x).
  rewrite (IH a d), (IH a x). reflexivity.
Qed.

Lemma last_in {A} (l : list A) (x : A) : In (last l x) (x :: l).
Proof.
  revert x. induction l as [|a l IH]; intros x; [left; reflexivity|].
  rewrite (last_cons l a x). right. exact (IH a).
Qed.

Lemma last_app_cons {A} (l1 l2 : list A) x d :
  last (l1 ++ x :: l2) d = last (x :: l2) d.
Proof.
  induction l1 as [|a l1 IH]; [reflexivity|].
  rewrite <- app_comm_cons. simpl (last (a :: _) d). rewrite IH.
  destruct (l1 ++ x :: l2) eqn:E; [destruct l1; discriminate|reflexivity].
Qed.

Lemma run_snapshots ln st cs tx :
  persist_sender st = Some tx -> receiver_alive tx = true ->
  exists snaps tx',
    persist_sender (run ln st cs) = Some tx' /\ receiver_alive tx' = true /\
    queued tx' = queued tx ++ snaps /\
    length snaps = length (fill_shares cs) /\
    (snaps <> [] -> forall d,
       inventory_shares (last snaps d) = current_inventory_shares (run ln st cs) /\
       cash_balance (last snaps d) = current_cash_balance (run ln st cs)).
Proof.
  intros Hs Ha. induction cs as [|c cs IH] using rev_ind.
  - exists [], tx. rewrite app_nil_r. repeat split; try assumption; exfalso; apply H; reflexivity.

  - destruct IH as (snaps & tx' & H1 & H2 & H3 & H4 & H5).
    unfold run in *. rewrite fold_left_app. simpl fold_left.
    unfold fill_shares in *. rewrite flat_map_app, length_app, <- H4.
    destruct c as [now_s ch cf|m|now m]; simpl step; simpl flat_map.
    + set (s0 := fold_left (step ln) cs st) in *.
      set (snap := {| inventory_shares := current_inventory_shares s0 + ch;
                      cash_balance := current_cash_balance s0 + cf;
                      timestamp := now_s |}%float).
      exists (snaps ++ [snap]), {| receiver_alive := true; queued := queued tx' ++ [snap] |}.
      unfold on_fill. rewrite H1. unfold send. rewrite H2. simpl.
      split; [reflexivity|]. split; [reflexivity|].
      split; [rewrite H3, app_assoc; reflexivity|].
      split; [rewrite length_app; simpl; lia|].
      intros _ d. rewrite !last_last. split; reflexivity.
    + exists snaps, tx'. rewrite equity_change_sender, (proj1 (StrategyFacts.equity_change_ledger _ _)),
        (proj2 (StrategyFacts.equity_change_ledger _ _)).
      split; [exact H1|]. split; [exact H2|]. split; [exact H3|].
      split; [simpl; lia | exact H5].
    + exists snaps, tx'. rewrite quotes_sender, (proj1 (StrategyFacts.quotes_ledger _ _ _ _)),
        (proj2 (StrategyFacts.quotes_ledger _ _ _ _)).
      split; [exact H1|]. split; [exact H2|]. split; [exact H3|].
      split; [simpl; lia | exact H5].
Qed.

(** X9: while the persistence worker is alive, a run of strategy calls
    queues exactly one snapshot per fill, after what was queued before, and
    the newest snapshot holds the strategy's current inventory and cash. *)
Theorem snapshots_track_ledger (ln : float -> float) (st : OpinionGridStrategy)
  (cs : list StrategyCall) (tx : Sender) :
  persist_sender st = Some tx -> receiver_alive tx = true ->
  exists snaps tx',
    persist_sender (run ln st cs) = Some tx' /\ receiver_alive tx' = true /\
    queued tx' = queued tx ++ snaps /\
    length snaps = length (fill_shares cs) /\
    (snaps <> [] -> forall d,
       inventory_shares (last snaps d) = current_inventory_shares (run ln st cs) /\
       cash_balance (last snaps d) = current_cash_balance (run ln st cs)).
Proof. apply run_snapshots. Qed.

Lemma snapshots_track_ledger_witness :
  persist_sender (new engine_config (Some {| receiver_alive := true; queued := [] |})) =
    Some {| receiver_alive := true; queued := [] |} /\
  receiver_alive {| receiver_alive := true; queued := [] |} = true /\
  exists snaps tx',
    persist_sender (run F64.ln_f64 (new engine_config (Some {| receiver_alive := true; queued := [] |}))
                      [OnFill 1 10 (-5); EquityChange 0.5; OnFill 2 (-4) 3]) = Some tx' /\
    receiver_alive tx' = true /\
    queued tx' = queued {| receiver_alive := true; queued := [] |} ++ snaps /\
    length snaps = length (fill_shares [OnFill 1 10 (-5); EquityChange 0.5; OnFill 2 (-4) 3]) /\
    (snaps <> [] -> forall d,
       inventory_shares (last snaps d) =
         current_inventory_shares (run F64.ln_f64 (new engine_config (Some {| receiver_alive := true; queued := [] |}))
                                     [OnFill 1 10 (-5); EquityChange 0.5; OnFill 2 (-4) 3]) /\
       cash_balance (last snaps d) =
         current_cash_balance (run F64.ln_f64 (new engine_config (Some {| receiver_alive := true; queued := [] |}))
                                 [OnFill 1 10 (-5); EquityChange 0.5; OnFill 2 (-4) 3])).
Proof.
  split; [reflexivity|]. split; [reflexivity|].
  apply snapshots_track_ledger; reflexivity.
Defined.

Lemma worker_last_round file rs r d :
  write_ok r = true -> rename_ok r = true ->
  persistence_worker file (rs ++ [r]) = Some (json_of_state (last (received (rs ++ [r])) d)).
Proof.
  intros Hw Hr. unfold persistence_worker. rewrite fold_left_app. simpl.
  unfold round_step. rewrite Hw, Hr. simpl.
  unfold received. rewrite flat_map_app. simpl. rewrite app_nil_r.
  rewrite last_app_cons, last_cons. reflexivity.
Qed.

(** X10: when the last round of the persistence worker writes and renames
    successfully, the state file holds the document of the newest snapshot
    the worker has received: the older snapshots drained in the same round
    are skipped, not written. *)
Theorem worker_writes_newest (file : option Json) (rs : list Round) (r : Round)
  (d : PersistState) :
  write_ok r = true -> rename_ok r = true ->
  persistence_worker file (rs ++ [r]) = Some (json_of_state (last (received (rs ++ [r])) d)).
Proof. apply worker_last_round. Qed.

Lemma worker_writes_newest_witness :
  let r := {| first := {| inventory_shares := 1; cash_balance := 1; timestamp := 1 |}; rest := [{| inventory_shares := 2; cash_balance := 2; timestamp := 2 |}; {| inventory_shares := 3; cash_balance := 3; timestamp := 3 |}];
              write_ok := true; rename_ok := true |} in
  write_ok r = true /\ rename_ok r = true /\
  persistence_worker None ([] ++ [r]) =
    Some (json_of_state (last (received ([] ++ [r])) ({| inventory_shares := 0; cash_balance := 0; timestamp := 0 |}))).
Proof.
  intros r. split; [reflexivity|]. split; [reflexivity|].
  apply worker_writes_newest; reflexivity.
Defined.

(** X11: the persistence worker never writes anything but a received
    snapshot: after any rounds the state file is the one it started from
    or the document of a snapshot taken off the channel. *)
Theorem worker_file_origin (file : option Json) (rounds : list Round) :
  persistence_worker file rounds = file \/
  exists s, In s (received rounds) /\ persistence_worker file rounds = Some (json_of_state s).
Proof.
  induction rounds as [|r rs IH] using rev_ind; [left; reflexivity|].
  unfold persistence_worker in *. rewrite fold_left_app. simpl.
  unfold received. rewrite flat_map_app.
  replace (round_step (fold_left round_step rs file) r) with
    (if write_ok r && rename_ok r then Some (json_of_state (last (rest r) (first r)))
     else fold_left round_step rs file) by reflexivity.
  destruct (write_ok r && rename_ok r).
  - right. exists (last (rest r) (first r)). split; [|reflexivity].
    apply in_or_app. right. simpl. rewrite app_nil_r. apply last_in.
  - destruct IH as [IH | (s & Hs & IH)]; [left; exact IH|].
    right. exists s. split; [apply in_or_app; left; exact Hs | exact IH].
Qed.

Lemma load_json_of_state reparse s :
  load_initial_state (Some (read_back reparse (json_of_state s))) =
  ((if is_finite (inventory_shares s) then reparse (inventory_shares s) else 0%float),
   (if is_finite (cash_balance s) then reparse (cash_balance s) else 0%float)).
Proof.
  unfold json_of_state, of_f64.
  destruct (is_finite (inventory_shares s)), (is_finite (cash_balance s)); reflexivity.
Qed.

(** X12: loading a state document the worker wrote gives back its
    inventory and cash, as the text layer returns the numbers; a NaN or
    infinite value was written as [null] and loads as 0.0. *)
Theorem load_after_write (reparse : float -> float) (s : PersistState) :
  load_initial_state (Some (read_back reparse (json_of_state s))) =
  ((if is_finite (inventory_shares s) then reparse (inventory_shares s) else 0%float),
   (if is_finite (cash_balance s) then reparse (cash_balance s) else 0%float)).
Proof. apply load_json_of_state. Qed.

(** X13: a restart restores the ledger. If the worker has received every
    snapshot a run of strategy calls with at least one fill queued, on a
    channel that was empty, and its last round wrote successfully, then
    loading the state file gives the run's inventory and cash (through the
    text layer; non-finite values as 0.0). *)
Theorem restart_restores_ledger (ln reparse : float -> float) (st : OpinionGridStrategy)
  (cs : list StrategyCall) (tx : Sender) (file : option Json) (rs : list Round) (r : Round) :
  persist_sender st = Some tx -> receiver_alive tx = true -> queued tx = [] ->
  fill_shares cs <> [] ->
  received (rs ++ [r]) = pending (run ln st cs) ->
  write_ok r = true -> rename_ok r = true ->
  load_initial_state (option_map (read_back reparse) (persistence_worker file (rs ++ [r]))) =
  (let inv := current_inventory_shares (run ln st cs) in
   let cash := current_cash_balance (run ln st cs) in
   ((if is_finite inv then reparse inv else 0%float),
    (if is_finite cash then reparse cash else 0%float))).
Proof.
  intros Hs Ha Hq Hf Hrec Hw Hr.
  destruct (run_snapshots ln st cs tx Hs Ha) as (snaps & tx' & H1 & H2 & H3 & H4 & H5).
  rewrite (worker_last_round file rs r (first r) Hw Hr). cbn [option_map].
  rewrite load_json_of_state. rewrite Hrec. unfold pending. rewrite H1, H3, Hq. simpl.
  assert (Hn : snaps <> []).
  { intros E. subst snaps. destruct (fill_shares cs); [contradiction | discriminate]. }
  destruct (H5 Hn (first r)) as [-> ->]. reflexivity.
Qed.

Lemma restart_restores_ledger_witness :
  let tx := {| receiver_alive := true; queued := [] |} in
  let st := new engine_config (Some tx) in
  let cs := [OnFill 1 10 (-5); EquityChange 0.5; OnFill 2 (-4) 3] in
  let r := {| first := {| inventory_shares := 10; cash_balance := (-5); timestamp := 1 |}; rest := [{| inventory_shares := 6; cash_balance := (-2); timestamp := 2 |}];
              write_ok := true; rename_ok := true |} in
  persist_sender st = Some tx /\ receiver_alive tx = true /\ queued tx = [] /\
  fill_shares cs <> [] /\ received ([] ++ [r]) = pending (run F64.ln_f64 st cs) /\
  load_initial_state (option_map (read_back (fun x => x)) (persistence_worker None ([] ++ [r]))) =
  (let inv := current_inventory_shares (run F64.ln_f64 st cs) in
   let cash := current_cash_balance (run F64.ln_f64 st cs) in
   ((if is_finite inv then inv else 0%float), (if is_finite cash then cash else 0%float))).
Proof.
  intros tx st cs r.
  assert (Hf : fill_shares cs <> []) by discriminate.
  assert (Hrec : received ([] ++ [r]) = pending (run F64.ln_f64 st cs)) by (vm_compute; reflexivity).
  split; [reflexivity|]. split; [reflexivity|]. split; [reflexivity|].
  split; [exact Hf|]. split; [exact Hrec|].
  exact (restart_restores_ledger F64.ln_f64 (fun x => x) st cs tx None [] r
           eq_refl eq_refl eq_refl Hf Hrec eq_refl eq_refl).
Defined.

End PersistFacts.


Module EngineLoopFacts.
Import Strategy Engine EngineLoop.

Lemma update_fired rm d :
  snd (Risk.update_pnl_and_check_kill rm d) = true ->
  Risk.is_kill_switch_active rm = false /\
  Risk.is_kill_switch_active (fst (Risk.update_pnl_and_check_kill rm d)) = true.
Proof.
  unfold Risk.update_pnl_and_check_kill.
  destruct (Risk.is_kill_switch_active rm); [discriminate|].
  destruct (PrimFloat.ltb _ _); destruct (PrimFloat.ltb (Risk.max_drawdown_usd rm) _);
    simpl; intros H; try discriminate; split; reflexivity.
Qed.

Lemma update_quiet rm d :
  snd (Risk.update_pnl_and_check_kill rm d) = false ->
  Risk.is_kill_switch_active (fst (Risk.update_pnl_and_check_kill rm d)) =
  Risk.is_kill_switch_active rm.
Proof.
  unfold Risk.update_pnl_and_check_kill.
  destruct (Risk.is_kill_switch_active rm) eqn:Hk; [intros _; exact Hk|].
  destruct (PrimFloat.ltb _ _); destruct (PrimFloat.ltb (Risk.max_drawdown_usd rm) _);
    simpl; intros H; try discriminate; reflexivity.
Qed.

(** The three outcomes of a market-data tick. *)
Lemma tick_cases ln s rm sym bids asks ms ns :
  let t := on_market_data ln s rm sym bids asks ms ns in
  (halted t = false /\ published t = [] /\ tick_risk t = rm /\ tick_strategy t = s) \/
  (halted t = true /\ published t = [kill_signal ns] /\
   Risk.is_kill_switch_active rm = false /\ Risk.is_kill_switch_active (tick_risk t) = true) \/
  (halted t = false /\
   Risk.is_kill_switch_active (tick_risk t) = Risk.is_kill_switch_active rm /\
   exists b a, published t = filter (Risk.check_signal (tick_risk t)) (quote_signals sym ns b a)).
Proof.
  intros t. subst t. unfold on_market_data. cbv zeta.
  destruct (_ || _); [left; repeat split|right].
  destruct (calculate_equity_change s _) as [s1 pnl].
  pose proof (update_fired rm pnl) as Hf. pose proof (update_quiet rm pnl) as Hq.
  destruct (Risk.update_pnl_and_check_kill rm pnl) as [rm1 fired]. cbn [fst snd] in Hf, Hq.
  destruct fired.
  - left. destruct (Hf eq_refl) as [H1 H2]. repeat split; assumption.
  - right. destruct (calculate_quotes ln s1 ms _) as [s2 [b a]].
    split; [reflexivity|]. split; [exact (Hq eq_refl)|]. exists b, a. reflexivity.
Qed.

Lemma quote_signals_shape sym ns b a :
  Forall (fun sg => strategy_id sg = 1 /\ logic_tag sg = 1 /\ size_usd sg = 50%Q /\
                    symbol_id sg = sym /\ created_at_ns sg = ns) (quote_signals sym ns b a).
Proof. repeat constructor. Qed.

(** A book update panics only on an overflowing sum of two non-zero best
    prices; otherwise it is the tick [on_market_data]. *)
Lemma handle_spec ln ov s rm sym bids asks ms ns :
  (handle_book ln ov s rm sym bids asks ms ns = Crashed /\
   Qeq_bool (best_price bids) 0 = false /\ Qeq_bool (best_price asks) 0 = false /\
   ov (best_price bids) (best_price asks) = true) \/
  handle_book ln ov s rm sym bids asks ms ns = Handled (on_market_data ln s rm sym bids asks ms ns).
Proof.
  unfold handle_book.
  destruct (Qeq_bool (best_price bids) 0) eqn:Hb; [right; reflexivity|].
  destruct (Qeq_bool (best_price asks) 0) eqn:Ha; [right; reflexivity|].
  cbn [orb]. destruct (ov (best_price bids) (best_price asks)) eqn:Ho; [left | right]; auto.
Qed.

Lemma tick_shape ln s rm sym bids asks ms ns :
  let t := on_market_data ln s rm sym bids asks ms ns in
  (halted t = true /\ published t = [kill_signal ns] /\
   Risk.is_kill_switch_active rm = false /\ Risk.is_kill_switch_active (tick_risk t) = true) \/
  (halted t = false /\ (length (published t) <= 2)%nat /\
   Forall (fun sg => (strategy_id sg = 1 /\ logic_tag sg = 1 /\ size_usd sg = 50%Q /\
                     symbol_id sg = sym /\ created_at_ns sg = ns) /\
                    Risk.check_signal (tick_risk t) sg = true)
     (published t)).
Proof.
  intros t. destruct (tick_cases ln s rm sym bids asks ms ns) as [H|[H|H]]; fold t in H.
  - right. destruct H as (H1 & H2 & _). rewrite H1, H2. split; [reflexivity|].
    split; [simpl; lia | constructor].
  - left. exact H.
  - right. destruct H as (H1 & _ & b & a & H2). rewrite H1, H2. split; [reflexivity|].
    split.
    + unfold quote_signals. simpl.
      destruct (Risk.check_signal _ _), (Risk.check_signal _ _); simpl; lia.
    + apply Forall_forall. intros sg Hin. apply filter_In in Hin as [Hin Hc].
      split; [|exact Hc].
      exact (proj1 (Forall_forall _ _) (quote_signals_shape sym ns b a) sg Hin).
Qed.

(** X15: a book update either panics, which happens only when both best
    prices are non-zero and their Decimal sum overflows; or fires the kill
    switch, which was off before and is on after, and publishes exactly
    the cancel-all sentinel; or keeps the loop running and publishes at
    most the two quotes (tag 1, 50 dollars, the book's symbol, the tick's
    timestamp), each accepted by the risk manager as it stands after the
    tick. *)
Theorem tick_outcome (ln : float -> float) (add_overflows : Q -> Q -> bool)
  (s : OpinionGridStrategy) (rm : Risk.RiskManager) (sym : Z) (bids asks : list (Q * Q))
  (ms ns : Z) :
  match handle_book ln add_overflows s rm sym bids asks ms ns with
  | Crashed =>
      Qeq_bool (best_price bids) 0 = false /\ Qeq_bool (best_price asks) 0 = false /\
      add_overflows (best_price bids) (best_price asks) = true
  | Handled t =>
      (halted t = true /\ published t = [kill_signal ns] /\
       Risk.is_kill_switch_active rm = false /\ Risk.is_kill_switch_active (tick_risk t) = true) \/
      (halted t = false /\ (length (published t) <= 2)%nat /\
       Forall (fun sg => (strategy_id sg = 1 /\ logic_tag sg = 1 /\ size_usd sg = 50%Q /\
                         symbol_id sg = sym /\ created_at_ns sg = ns) /\
                        Risk.check_signal (tick_risk t) sg = true)
         (published t))
  end.
Proof.
  destruct (handle_spec ln add_overflows s rm sym bids asks ms ns) as [(-> & H) | ->].
  - exact H.
  - apply tick_shape.
Qed.

Lemma check_signal_latched rm sg :
  Risk.is_kill_switch_active rm = true -> Risk.check_signal rm sg = false.
Proof. intros H. unfold Risk.check_signal. rewrite H. reflexivity. Qed.

Lemma tick_latched ln s rm sym bids asks ms ns :
  Risk.is_kill_switch_active rm = true ->
  let t := on_market_data ln s rm sym bids asks ms ns in
  published t = [] /\ halted t = false /\ tick_risk t = rm.
Proof.
  intros Hk t. subst t. unfold on_market_data. cbv zeta.
  destruct (_ || _); [repeat split|].
  destruct (calculate_equity_change s _) as [s1 pnl].
  replace (Risk.update_pnl_and_check_kill rm pnl) with (rm, false)
    by (unfold Risk.update_pnl_and_check_kill; rewrite Hk; reflexivity).
  destruct (calculate_quotes ln s1 ms _) as [s2 [b a]]. cbn.
  rewrite !check_signal_latched by exact Hk. repeat split.
Qed.

(** X16: once the kill switch is on, a book update publishes nothing,
    leaves the risk manager as it is and does not stop the loop; the one
    way it still ends the loop is the panic of an overflowing Decimal sum
    of the best prices. *)
Theorem latched_tick_silent (ln : float -> float) (add_overflows : Q -> Q -> bool)
  (s : OpinionGridStrategy) (rm : Risk.RiskManager) (sym : Z) (bids asks : list (Q * Q))
  (ms ns : Z) :
  Risk.is_kill_switch_active rm = true ->
  (handle_book ln add_overflows s rm sym bids asks ms ns = Crashed /\
   add_overflows (best_price bids) (best_price asks) = true) \/
  exists t, handle_book ln add_overflows s rm sym bids asks ms ns = Handled t /\
    published t = [] /\ halted t = false /\ tick_risk t = rm.
Proof.
  intros Hk.
  destruct (handle_spec ln add_overflows s rm sym bids asks ms ns) as [(H1 & _ & _ & H2) | H].
  - left. split; assumption.
  - right. eexists. split; [exact H|]. apply tick_latched. exact Hk.
Qed.

Lemma latched_tick_silent_witness :
  let rm := Risk.with_pnl (Risk.new 100 500 (2#100) (98#100)) (-150) 0 150 true in
  Risk.is_kill_switch_active rm = true /\
  ((handle_book F64.ln_f64 (fun _ _ => false) (new Scenarios.engine_config None) rm 7
      [(45#100, 10#1)] [(55#100, 10#1)] Scenarios.thirty_days_before 0 = Crashed /\
    (fun _ _ => false) (best_price [(45#100, 10#1)]) (best_price [(55#100, 10#1)]) = true) \/
   exists t, handle_book F64.ln_f64 (fun _ _ => false) (new Scenarios.engine_config None) rm 7
      [(45#100, 10#1)] [(55#100, 10#1)] Scenarios.thirty_days_before 0 = Handled t /\
    published t = [] /\ halted t = false /\ tick_risk t = rm).
Proof.
  intros rm. split; [reflexivity|]. apply latched_tick_silent. reflexivity.
Defined.

Lemma loop_shape ln ov s rm msgs :
  let e := main_loop ln ov s rm msgs in
  exists quotes, Forall (fun sg => logic_tag sg = 1) quotes /\
   ((end_halted e = false /\ end_published e = quotes) \/
    (end_halted e = true /\ end_crashed e = false /\
     exists ns, end_published e = quotes ++ [kill_signal ns])).
Proof.
  revert s rm. induction msgs as [|m msgs IH]; intros s rm; cbn [main_loop].
  - exists []. split; [constructor | left; split; reflexivity].
  - destruct m as [sym bids asks ms ns|ch cf now_s|]; [|apply IH|apply IH].
    destruct (handle_spec ln ov s rm sym bids asks ms ns) as [(-> & _) | ->].
    { exists []. split; [constructor | left; split; reflexivity]. }
    destruct (tick_cases ln s rm sym bids asks ms ns) as [H|[H|H]].
    + destruct H as (H1 & H2 & H3 & H4). rewrite H1, H2, H3, H4. simpl. apply IH.
    + destruct H as (H1 & H2 & _). rewrite H1, H2. simpl.
      exists []. split; [constructor|]. right. split; [reflexivity|].
      split; [reflexivity|]. exists ns. reflexivity.
    + destruct H as (H1 & _ & b & a & H2). rewrite H1. simpl.
      destruct (IH (tick_strategy (on_market_data ln s rm sym bids asks ms ns))
                   (tick_risk (on_market_data ln s rm sym bids asks ms ns)))
        as (qs & Hq & Hcase).
      exists (published (on_market_data ln s rm sym bids asks ms ns) ++ qs). split.
      * apply Forall_app. split; [|exact Hq]. rewrite H2.
        apply Forall_forall. intros sg Hin. apply filter_In in Hin as [Hin _].
        destruct (proj1 (Forall_forall _ _) (quote_signals_shape sym ns b a) sg Hin)
          as (_ & Ht & _). exact Ht.
      * destruct Hcase as [(E1 & E2) | (E1 & E3 & ns' & E2)].
        -- left. split; [exact E1|]. rewrite E2. reflexivity.
        -- right. split; [exact E1|]. split; [exact E3|].
           exists ns'. rewrite E2, app_assoc. reflexivity.
Qed.

Lemma loop_halted ln ov s rm msgs :
  end_halted (main_loop ln ov s rm msgs) =
  negb (Risk.is_kill_switch_active rm) &&
  Risk.is_kill_switch_active (end_risk (main_loop ln ov s rm msgs)).
Proof.
  revert s rm. induction msgs as [|m msgs IH]; intros s rm; cbn [main_loop].
  - cbn [end_halted end_risk]. destruct (Risk.is_kill_switch_active rm); reflexivity.
  - destruct m as [sym bids asks ms ns|ch cf now_s|]; [|apply IH|apply IH].
    destruct (handle_spec ln ov s rm sym bids asks ms ns) as [(-> & _) | ->].
    { simpl. destruct (Risk.is_kill_switch_active rm); reflexivity. }
    destruct (tick_cases ln s rm sym bids asks ms ns) as [H|[H|H]].
    + destruct H as (H1 & H2 & H3 & H4). rewrite H1. simpl. rewrite H3, H4. apply IH.
    + destruct H as (H1 & _ & H3 & H4). rewrite H1. simpl. rewrite H3, H4. reflexivity.
    + destruct H as (H1 & H3 & _). rewrite H1. simpl. rewrite IH, H3. reflexivity.
Qed.

(** X17: everything the engine publishes, from the loop and the shutdown,
    is a run of quotes (tag 1) followed by cancel-all sentinels: none when
    the loop panicked, otherwise three from the shutdown, plus one when
    the loop stopped on the kill switch. *)
Theorem engine_output_shape (ln : float -> float) (add_overflows : Q -> Q -> bool)
  (s : OpinionGridStrategy) (rm : Risk.RiskManager) (msgs : list Message) (t1 t2 t3 : Z) :
  let r := run_strategy_engine ln add_overflows s rm msgs t1 t2 t3 in
  exists quotes kills,
    snd r = quotes ++ kills /\
    Forall (fun sg => logic_tag sg = 1) quotes /\
    Forall (fun sg => sg = kill_signal (created_at_ns sg)) kills /\
    length kills = (if end_crashed (fst r) then 0 else if end_halted (fst r) then 4 else 3)%nat.
Proof.
  intros r. subst r. unfold run_strategy_engine. cbv zeta.
  destruct (loop_shape ln add_overflows s rm msgs) as (qs & Hq & [(E1 & E2) | (E1 & E3 & ns & E2)]).
  - destruct (end_crashed (main_loop ln add_overflows s rm msgs)) eqn:Ec; cbn [fst snd];
      rewrite ?Ec, ?E1, ?E2.
    + exists qs, []. rewrite app_nil_r. repeat split; [exact Hq | constructor].
    + exists qs, [kill_signal t1; kill_signal t2; kill_signal t3].
      repeat split; [exact Hq|]. repeat constructor.
  - rewrite E3. cbn [fst snd]. rewrite ?E3, ?E1, ?E2.
    exists qs, [kill_signal ns; kill_signal t1; kill_signal t2; kill_signal t3].
    rewrite <- app_assoc. repeat split; [exact Hq|]. repeat constructor.
Qed.

(** X18: the loop stops on the kill switch exactly when the risk manager
    fires during the loop: it ends halted if and only if the switch was
    off at the start and is on at the end. *)
Theorem loop_halts_on_kill (ln : float -> float) (add_overflows : Q -> Q -> bool)
  (s : OpinionGridStrategy) (rm : Risk.RiskManager) (msgs : list Message) :
  end_halted (main_loop ln add_overflows s rm msgs) =
  negb (Risk.is_kill_switch_active rm) &&
  Risk.is_kill_switch_active (end_risk (main_loop ln add_overflows s rm msgs)).
Proof. apply loop_halted. Qed.

(** X19: fed to the execution loop, the engine's signals start one signing
    task per quote, in order, then the cancel-all tasks: none when the
    engine panicked, otherwise three (four when the loop stopped on the
    kill switch). *)
Theorem engine_tasks (ln : float -> float) (add_overflows : Q -> Q -> bool)
  (s : OpinionGridStrategy) (rm : Risk.RiskManager) (msgs : list Message) (t1 t2 t3 : Z) :
  let r := run_strategy_engine ln add_overflows s rm msgs t1 t2 t3 in
  exists quotes,
    firstn (length quotes) (snd r) = quotes /\
    map ExecLoop.dispatch (snd r) =
      map ExecLoop.SignTask quotes ++
      repeat ExecLoop.CancelTask
        (if end_crashed (fst r) then 0 else if end_halted (fst r) then 4 else 3)%nat.
Proof.
  intros r. subst r. unfold run_strategy_engine. cbv zeta.
  destruct (loop_shape ln add_overflows s rm msgs) as (qs & Hq & Hcase).
  assert (Hs : map ExecLoop.dispatch qs = map ExecLoop.SignTask qs).
  { clear Hcase. induction Hq as [|sg qs' Ht _ IHq]; [reflexivity|].
    simpl. rewrite IHq. unfold ExecLoop.dispatch. rewrite Ht. reflexivity. }
  exists qs. destruct Hcase as [(E1 & E2) | (E1 & E3 & ns & E2)].
  - destruct (end_crashed (main_loop ln add_overflows s rm msgs)) eqn:Ec; cbn [fst snd];
      rewrite ?Ec, ?E1, ?E2.
    + split; [apply firstn_all|]. rewrite Hs. symmetry. apply app_nil_r.
    + split; [rewrite firstn_app, Nat.sub_diag, firstn_all; apply app_nil_r|].
      rewrite map_app, Hs. reflexivity.
  - rewrite E3. cbn [fst snd]. rewrite ?E3, ?E1, ?E2. rewrite <- app_assoc.
    split; [rewrite firstn_app, Nat.sub_diag, firstn_all; apply app_nil_r|].
    rewrite map_app, Hs. reflexivity.
Qed.

End EngineLoopFacts.

Module ExecLoopFacts.
Import ExecLoop.

(** X20: the cancel task calls [cancel_all] at most three times, with
    attempt numbers 1, 2, 3 in order, and stops at the first that
    succeeds: it makes attempts [1..m], all before [m] failed, and [m]
    succeeded or was the third. *)
Theorem cancel_task_attempts (ok : nat -> bool) :
  exists m, (1 <= m <= 3)%nat /\ cancel_task ok = seq 1 m /\
    (forall i, (1 <= i < m)%nat -> ok i = false) /\ (ok m = true \/ m = 3%nat).
Proof.
  unfold cancel_task. simpl.
  destruct (ok 1%nat) eqn:E1; [exists 1%nat; repeat split; auto; intros; lia|].
  destruct (ok 2%nat) eqn:E2; [exists 2%nat; repeat split; auto;
    intros i Hi; replace i with 1%nat by lia; exact E1|].
  destruct (ok 3%nat) eqn:E3; exists 3%nat; repeat split; auto;
    intros i Hi; (assert (i = 1 \/ i = 2)%nat as [-> | ->] by lia); assumption.
Qed.

End ExecLoopFacts.

Module MessagingFacts.
Import Messaging.

(** X21: a signal sent on the bus reaches a subscriber to "SG" and a
    subscriber to everything ("" topic), which read back exactly the
    encoded bytes; a book update is filtered out by an "SG" subscriber,
    and a signal by an "MD" subscriber. *)
Theorem topic_routing (encoded : Frame) :
  delivered topic_SG (send_signal encoded) = true /\
  delivered [] (send_signal encoded) = true /\
  recv_raw_bytes (Some (send_signal encoded)) = Some encoded /\
  delivered topic_SG (send_book_update encoded) = false /\
  delivered topic_MD (send_book_update encoded) = true /\
  delivered [] (send_book_update encoded) = true /\
  recv_raw_bytes (Some (send_book_update encoded)) = Some encoded /\
  delivered topic_MD (send_signal encoded) = false.
Proof. repeat split. Qed.

End MessagingFacts.
